(** * kubernetes-event-exporter: the event watcher and two sink adapters

    A shallow embedding of [pkg/kube/watcher.go], [pkg/sinks/teams.go] and
    [pkg/sinks/loki.go], with the properties of the event pipeline stated
    over it.

    Conventions of the embedding:
    - a Go pointer is an address ([Ptr]) into a heap kept in the [World];
      dereferencing an address that holds no object panics, as a nil
      dereference does;
    - a function of the package is a computation in the monad [Go]: it takes
      the world, and either returns a value and the new world or panics;
    - every call that leaves the package (the logger, a Prometheus counter,
      the metadata provider, the handler) is appended to the world's [trace],
      oldest first, so that the order of these calls can be stated;
    - Go's [nil] slice and [nil] map are the empty list and the empty map. *)

From Stdlib Require Import ZArith String List Bool Lia.
From stdpp Require Import base option list gmap strings pretty.

Local Open Scope string_scope.
Local Open Scope Z_scope.

(** ** Package [time] *)

Module GoTime.

(** An instant on the wall clock, in nanoseconds since Go's zero [Time]
    (January 1, year 1, 00:00:00 UTC). Monotonic clock readings are not
    modelled: timestamps decoded from the API carry none, and both
    [Time.Sub] and [Time.After] fall back to the wall clock as soon as
    one operand has none. *)
Definition Time := Z.

(** [time.Duration] is an [int64] count of nanoseconds. *)
Definition Duration := Z.

Definition minDuration : Duration := - 2 ^ 63.
Definition maxDuration : Duration := 2 ^ 63 - 1.
Definition Second : Duration := 1000000000.

(** The values an [int64] can hold. *)
Definition inInt64 (d : Z) : Prop := minDuration <= d <= maxDuration.

(** Two's complement wrap-around of [int64] arithmetic. *)
Definition wrap64 (z : Z) : Z := (z + 2 ^ 63) mod 2 ^ 64 - 2 ^ 63.

(** [Duration * Duration], as the machine computes it. *)
Definition mulDuration (a b : Duration) : Duration := wrap64 (a * b).

(** [Time.IsZero]. *)
Definition IsZero (t : Time) : bool := t =? 0.

(** [Time.After]: strictly later. *)
Definition After (t u : Time) : bool := u <? t.

(** [Time.Sub]: the difference, or the largest (smallest) [Duration] when
    the difference does not fit. *)
Definition Sub (t u : Time) : Duration :=
  if maxDuration <? t - u then maxDuration
  else if t - u <? minDuration then minDuration
  else t - u.

(** [time.Since t] is [time.Now().Sub(t)]; the clock reading is passed in. *)
Definition Since (now t : Time) : Duration := Sub now t.

End GoTime.

Import GoTime.

(** ** Errors *)

(** A Go [error] value. [StatusNotFound] stands for the API status errors
    that [errors.IsNotFound] recognises, [errorString] for every other
    error, such as the ones [fmt.Errorf] and [errors.New] build. *)
Inductive error : Type :=
| StatusNotFound (msg : string)
| errorString (msg : string).

(** [errors.IsNotFound] of k8s.io/apimachinery. *)
Definition IsNotFound (err : error) : bool :=
  match err with
  | StatusNotFound _ => true
  | errorString _ => false
  end.

(** A pointer: an address in one of the heaps of the [World]. *)
Definition Ptr := nat.

(** ** Package [metrics] *)

Module Store.
(** [metrics.Store]: the counters of the exporter. A Prometheus counter
    keeps the increments made by [Inc] in an integer. *)
Record t : Type := mk {
  EventsProcessed : N;
  EventsDiscarded : N;
  WatchErrors : N;
  SendErrors : N;
  KubeApiReadCacheHits : N;
  KubeApiReadRequests : N
}.

(** The store [NewMetricsStore] returns: every counter at zero. *)
Definition fresh : t := mk 0 0 0 0 0 0.
End Store.

(** The counters the watcher increments. *)
Inductive Counter : Type :=
| EventsProcessed
| EventsDiscarded
| WatchErrors.

#[global] Instance Counter_eq_dec : EqDecision Counter.
Proof. solve_decision. Defined.

(** [Counter.Inc] on one field of a store. *)
Definition incCounter (c : Counter) (s : Store.t) : Store.t :=
  match c with
  | EventsProcessed =>
      Store.mk (Store.EventsProcessed s + 1) (Store.EventsDiscarded s)
        (Store.WatchErrors s) (Store.SendErrors s)
        (Store.KubeApiReadCacheHits s) (Store.KubeApiReadRequests s)
  | EventsDiscarded =>
      Store.mk (Store.EventsProcessed s) (Store.EventsDiscarded s + 1)
        (Store.WatchErrors s) (Store.SendErrors s)
        (Store.KubeApiReadCacheHits s) (Store.KubeApiReadRequests s)
  | WatchErrors =>
      Store.mk (Store.EventsProcessed s) (Store.EventsDiscarded s)
        (Store.WatchErrors s + 1) (Store.SendErrors s)
        (Store.KubeApiReadCacheHits s) (Store.KubeApiReadRequests s)
  end.

(** ** The Kubernetes API types the watcher reads *)

Module ObjectReference.
(** [corev1.ObjectReference]: all fields are strings. *)
Record t : Type := mk {
  Kind : string;
  Namespace : string;
  Name : string;
  UID : string;
  APIVersion : string;
  ResourceVersion : string;
  FieldPath : string
}.

Definition zero : t := mk "" "" "" "" "" "" "".

(** The generated [DeepCopy]: a new struct, field by field. *)
Definition DeepCopy (r : t) : t :=
  mk (Kind r) (Namespace r) (Name r) (UID r) (APIVersion r)
     (ResourceVersion r) (FieldPath r).
End ObjectReference.

Module OwnerReference.
(** [metav1.OwnerReference]. *)
Record t : Type := mk {
  APIVersion : string;
  Kind : string;
  Name : string;
  UID : string;
  Controller : option bool;
  BlockOwnerDeletion : option bool
}.
End OwnerReference.

Module ManagedFieldsEntry.
(** [metav1.ManagedFieldsEntry], the server-side bookkeeping of who set
    which field. *)
Record t : Type := mk {
  Manager : string;
  Operation : string;
  APIVersion : string;
  Time : option GoTime.Time;
  FieldsType : string;
  FieldsV1 : string;
  Subresource : string
}.

Definition DeepCopy (m : t) : t :=
  mk (Manager m) (Operation m) (APIVersion m)
     (match Time m with Some x => Some x | None => None end)
     (FieldsType m) (FieldsV1 m) (Subresource m).
End ManagedFieldsEntry.

Module EventSeries.
(** [corev1.EventSeries]. *)
Record t : Type := mk {
  Count : Z;
  LastObservedTime : Time
}.

Definition DeepCopy (s : t) : t := mk (Count s) (LastObservedTime s).
End EventSeries.

Module Event.
(** [corev1.Event], with the fields of its embedded [ObjectMeta] that the
    watcher names ([Name], [Namespace], [ManagedFields]) written as Go
    promotes them. [Series] is a pointer in Go: [None] is [nil]. *)
Record t : Type := mk {
  Name : string;
  Namespace : string;
  ManagedFields : list ManagedFieldsEntry.t;
  InvolvedObject : ObjectReference.t;
  Reason : string;
  Message : string;
  FirstTimestamp : Time;
  LastTimestamp : Time;
  Count : Z;
  Type_ : string;
  EventTime : Time;
  Series : option EventSeries.t
}.

(** The generated [DeepCopy]: a new event that shares no memory with the
    receiver. *)
Definition DeepCopy (e : t) : t :=
  mk (Name e) (Namespace e)
     (map ManagedFieldsEntry.DeepCopy (ManagedFields e))
     (InvolvedObject e)
     (Reason e) (Message e) (FirstTimestamp e) (LastTimestamp e)
     (Count e) (Type_ e) (EventTime e)
     (match Series e with
      | Some s => Some (EventSeries.DeepCopy s)
      | None => None
      end).

(** [ev.Event.ManagedFields = nil]. *)
Definition clearManagedFields (e : t) : t :=
  mk (Name e) (Namespace e) [] (InvolvedObject e)
     (Reason e) (Message e) (FirstTimestamp e) (LastTimestamp e)
     (Count e) (Type_ e) (EventTime e) (Series e).
End Event.

(** ** Package [kube]: the enriched event *)

Module ObjectMetadata.
(** Modelled from the spec: [ObjectMetadata] of pkg/kube/objects.go, which
    is not among the sources. The spec's cache entry "holds the resolved
    labels/annotations/owner-references, a deletion flag"; [onEvent] reads
    exactly these four fields. *)
Record t : Type := mk {
  Annotations : gmap string string;
  Labels : gmap string string;
  OwnerReferences : list OwnerReference.t;
  Deleted : bool
}.
End ObjectMetadata.

Module EnhancedObjectReference.
(** Modelled from the spec: [EnhancedObjectReference] of
    pkg/kube/event.go, which is not among the sources: the object
    reference together with the "resolved metadata about the involved
    object: labels, annotations, owner references and a deletion flag".
    The field names are the ones [onEvent] assigns. *)
Record t : Type := mk {
  ObjectReference : ObjectReference.t;
  Labels : gmap string string;
  Annotations : gmap string string;
  OwnerReferences : list OwnerReference.t;
  Deleted : bool
}.

(** The zero value a composite literal leaves in the field. *)
Definition zero : t := mk ObjectReference.zero ∅ ∅ [] false.

Definition setObjectReference (r : ObjectReference.t) (o : t) : t :=
  mk r (Labels o) (Annotations o) (OwnerReferences o) (Deleted o).
Definition setLabels (l : gmap string string) (o : t) : t :=
  mk (ObjectReference o) l (Annotations o) (OwnerReferences o) (Deleted o).
Definition setAnnotations (a : gmap string string) (o : t) : t :=
  mk (ObjectReference o) (Labels o) a (OwnerReferences o) (Deleted o).
Definition setOwnerReferences (r : list OwnerReference.t) (o : t) : t :=
  mk (ObjectReference o) (Labels o) (Annotations o) r (Deleted o).
Definition setDeleted (d : bool) (o : t) : t :=
  mk (ObjectReference o) (Labels o) (Annotations o) (OwnerReferences o) d.
End EnhancedObjectReference.

Module EnhancedEvent.
(** Modelled from the spec: [EnhancedEvent] of pkg/kube/event.go, which is
    not among the sources: "a RawEvent plus resolved metadata about the
    involved object". The embedded [corev1.Event] is the field [Event];
    [InvolvedObject] is the enriched reference that [onEvent] fills in. *)
Record t : Type := mk {
  Event : Event.t;
  ClusterName : string;
  InvolvedObject : EnhancedObjectReference.t
}.

Definition setEvent (e : Event.t) (ev : t) : t :=
  mk e (ClusterName ev) (InvolvedObject ev).
Definition setInvolvedObject (o : EnhancedObjectReference.t) (ev : t) : t :=
  mk (Event ev) (ClusterName ev) o.
End EnhancedEvent.

(** ** The world the watcher runs in *)

(** A handler is foreign code ([type EventHandler func(event *EnhancedEvent)]):
    it is known by its address, and its calls are traced. *)
Definition EventHandler := Ptr.

Inductive Level : Type := DebugLevel | WarnLevel | ErrorLevel.

(** The fields put on a zerolog event. [StrDuration k d] stands for
    [Str(k, d.String())], the duration left unformatted. *)
Inductive LogField : Type :=
| Str (key val : string)
| StrDuration (key : string) (d : Duration)
| Err (err : error).

(** The calls that leave the package. *)
Inductive Effect : Type :=
| Log (lvl : Level) (fields : list LogField) (msg : string)
| Inc (store : Ptr) (c : Counter)
| GetObjectMetadata (ref : ObjectReference.t) (clientset dynamicClient store : Ptr)
| Handle (fn : EventHandler) (ev : EnhancedEvent.t).

Record World : Type := mkWorld {
  (** [var startUpTime = time.Now()]: one variable of the package. *)
  startUpTime : Time;
  (** The event records the informer owns, by address. *)
  events : gmap Ptr Event.t;
  (** The [metrics.Store] objects, by address. *)
  stores : gmap Ptr Store.t;
  (** The calls made so far, oldest first. *)
  trace : list Effect
}.

(** The outcome of running a function of the package. *)
Inductive Result (A : Type) : Type :=
| Returned (a : A) (w : World)
| Panicked (reason : string) (w : World).
Arguments Returned {A} a w.
Arguments Panicked {A} reason w.

Definition Go (A : Type) : Type := World → Result A.

#[global] Instance Go_ret : MRet Go := λ A a w, Returned a w.

#[global] Instance Go_bind : MBind Go := λ A B f m w,
  match m w with
  | Returned a w' => f a w'
  | Panicked reason w' => Panicked reason w'
  end.

Definition panic {A : Type} (reason : string) : Go A :=
  λ w, Panicked reason w.

(** [*event], for a [*corev1.Event]. *)
Definition loadEvent (p : Ptr) : Go Event.t := λ w,
  match events w !! p with
  | Some ev => Returned ev w
  | None => Panicked "invalid memory address or nil pointer dereference" w
  end.

(** Reading the package variable. *)
Definition readStartUpTime : Go Time := λ w, Returned (startUpTime w) w.

Definition emit (x : Effect) : Go unit := λ w,
  Returned tt (mkWorld (startUpTime w) (events w) (stores w) (trace w ++ [x])).

(** [log.Warn()....Msg(msg)] and its siblings. *)
Definition log (lvl : Level) (fields : list LogField) (msg : string) : Go unit :=
  emit (Log lvl fields msg).

(** [store.<c>.Inc()] through a [*metrics.Store]. *)
Definition inc (store : Ptr) (c : Counter) : Go unit := λ w,
  match stores w !! store with
  | Some s =>
      Returned tt
        (mkWorld (startUpTime w) (events w)
           (<[store := incCounter c s]> (stores w))
           (trace w ++ [Inc store c]))
  | None => Panicked "invalid memory address or nil pointer dereference" w
  end.

(** The interface [ObjectMetadataProvider]. Its implementation is outside
    the sources, so a provider is any function from the arguments of
    [GetObjectMetadata] (the reference, the two clients and the store) to
    the pair the call returns; [None] is the [nil] error. The counters a
    provider may keep for itself are not part of this embedding. *)
Record ObjectMetadataProvider : Type := mkProvider {
  provide :
    ObjectReference.t → Ptr → Ptr → Ptr → ObjectMetadata.t * option error
}.

(** [type EventWatcher struct]. The fields [wg], [informer] and [stopper]
    serve [Start] and [Stop] only and are left out. *)
Record EventWatcher : Type := mkEventWatcher {
  objectMetadataCache : ObjectMetadataProvider;
  omitLookup : bool;
  fn : EventHandler;
  maxEventAgeSeconds : Duration;
  metricsStore : Ptr;
  dynamicClient : Ptr;
  clientset : Ptr
}.

(** The part of [NewEventWatcher] that fills the struct; the clients and the
    provider, which it builds from the configuration, are taken as given. *)
Definition NewEventWatcher (clients : Ptr * Ptr) (MaxEventAgeSeconds : Z)
    (store : Ptr) (handler : EventHandler) (omit : bool)
    (provider : ObjectMetadataProvider) : EventWatcher :=
  mkEventWatcher provider omit handler
    (mulDuration Second MaxEventAgeSeconds) store (snd clients) (fst clients).

(** [e.objectMetadataCache.GetObjectMetadata(&event.InvolvedObject,
    e.clientset, e.dynamicClient, e.metricsStore)]. *)
Definition callGetObjectMetadata (e : EventWatcher) (ref : ObjectReference.t)
    : Go (ObjectMetadata.t * option error) := λ w,
  let w' :=
    mkWorld (startUpTime w) (events w) (stores w)
      (trace w ++ [GetObjectMetadata ref (clientset e) (dynamicClient e) (metricsStore e)]) in
  Returned
    (provide (objectMetadataCache e) ref (clientset e) (dynamicClient e)
       (metricsStore e)) w'.

(** [e.fn(ev)]. *)
Definition callHandler (e : EventWatcher) (ev : EnhancedEvent.t) : Go unit :=
  emit (Handle (fn e) ev).

(** Lines 76 to 83 of [isEventDiscarded]: the time the event was last seen.
    [fallback] is the [else if] ... [else] part, which both a missing series
    and a series with a zero time lead to. *)
Definition timestampOf (event : Event.t) : Time :=
  let fallback :=
    if negb (IsZero (Event.LastTimestamp event)) then Event.LastTimestamp event
    else Event.EventTime event in
  match Event.Series event with
  | Some series =>
      if negb (IsZero (EventSeries.LastObservedTime series)) then
        EventSeries.LastObservedTime series
      else fallback
  | None => fallback
  end.

(** [func (e *EventWatcher) isEventDiscarded(event *corev1.Event) bool];
    [now] is what [time.Now()] reads inside [time.Since]. *)
Definition isEventDiscarded (e : EventWatcher) (now : Time) (event : Ptr) : Go bool :=
  ev ← loadEvent event;
  let timestamp := timestampOf ev in
  let eventAge := Since now timestamp in
  if maxEventAgeSeconds e <? eventAge then
    start ← readStartUpTime;
    (if After timestamp start then
       log WarnLevel
         [StrDuration "event age" eventAge;
          Str "event namespace" (Event.Namespace ev);
          Str "event name" (Event.Name ev)]
         "Event discarded as being older than maxEventAgeSeconds";;
       inc (metricsStore e) EventsDiscarded
     else mret tt);;
    mret true
  else
    mret false.

(** [func (e *EventWatcher) onEvent(event *corev1.Event)]. *)
Definition onEvent (e : EventWatcher) (now : Time) (event : Ptr) : Go unit :=
  discarded ← isEventDiscarded e now event;
  if discarded : bool then mret tt
  else
    raw ← loadEvent event;
    log DebugLevel
      [Str "msg" (Event.Message raw);
       Str "namespace" (Event.Namespace raw);
       Str "reason" (Event.Reason raw);
       Str "involvedObject" (ObjectReference.Name (Event.InvolvedObject raw))]
      "Received event";;
    inc (metricsStore e) EventsProcessed;;
    let ev := EnhancedEvent.mk (Event.DeepCopy raw) "" EnhancedObjectReference.zero in
    let ev := EnhancedEvent.setEvent (Event.clearManagedFields (EnhancedEvent.Event ev)) ev in
    let setReference (ev : EnhancedEvent.t) :=
      EnhancedEvent.setInvolvedObject
        (EnhancedObjectReference.setObjectReference
           (ObjectReference.DeepCopy (Event.InvolvedObject raw))
           (EnhancedEvent.InvolvedObject ev)) ev in
    ev ← (if omitLookup e then mret (setReference ev)
          else
            '(objectMetadata, err) ← callGetObjectMetadata e (Event.InvolvedObject raw);
            match err with
            | Some err =>
                ev ← (if IsNotFound err then
                        let ev :=
                          EnhancedEvent.setInvolvedObject
                            (EnhancedObjectReference.setDeleted true
                               (EnhancedEvent.InvolvedObject ev)) ev in
                        log ErrorLevel [Err err] "Object not found, likely deleted";;
                        mret ev
                      else
                        log ErrorLevel [Err err] "Failed to get object metadata";;
                        mret ev);
                mret (setReference ev)
            | None =>
                let io := EnhancedEvent.InvolvedObject ev in
                let io := EnhancedObjectReference.setLabels (ObjectMetadata.Labels objectMetadata) io in
                let io := EnhancedObjectReference.setAnnotations (ObjectMetadata.Annotations objectMetadata) io in
                let io := EnhancedObjectReference.setOwnerReferences (ObjectMetadata.OwnerReferences objectMetadata) io in
                let io := EnhancedObjectReference.setObjectReference (ObjectReference.DeepCopy (Event.InvolvedObject raw)) io in
                let io := EnhancedObjectReference.setDeleted (ObjectMetadata.Deleted objectMetadata) io in
                mret (EnhancedEvent.setInvolvedObject io ev)
            end);
    callHandler e ev.

(** What an informer hands to its callbacks: an [interface{}] holding a
    [*corev1.Event], or a value of another type. *)
Inductive Object : Type :=
| EventObject (event : Ptr)
| OtherObject (typeName : string).

(** The type assertion of [obj] to a pointer to [corev1.Event]. *)
Definition assertEvent (obj : Object) : Go Ptr :=
  match obj with
  | EventObject event => mret event
  | OtherObject typeName =>
      panic ("interface conversion: interface {} is " ++ typeName ++ ", not *v1.Event")
  end.

(** [func (e *EventWatcher) OnAdd(obj interface{}, isInInitialList bool)]. *)
Definition OnAdd (e : EventWatcher) (now : Time) (obj : Object) (isInInitialList : bool)
    : Go unit :=
  event ← assertEvent obj;
  onEvent e now event.

(** [func (e *EventWatcher) OnUpdate(oldObj, newObj interface{})]. *)
Definition OnUpdate (e : EventWatcher) (now : Time) (oldObj newObj : Object) : Go unit :=
  event ← assertEvent newObj;
  onEvent e now event.

(** [func (e *EventWatcher) OnDelete(obj interface{})]. *)
Definition OnDelete (e : EventWatcher) (obj : Object) : Go unit :=
  mret tt.

(** [func (e *EventWatcher) setStartUpTime(time time.Time)]: an assignment to
    the package variable; the receiver is not used. *)
Definition setStartUpTime (e : EventWatcher) (time : Time) : Go unit := λ w,
  Returned tt (mkWorld time (events w) (stores w) (trace w)).

(** The handler registered with [informer.SetWatchErrorHandler]. *)
Definition onWatchError (e : EventWatcher) : Go unit :=
  inc (metricsStore e) WatchErrors.

(** ** Reading a world *)

(** The handler calls in a trace, oldest first. *)
Fixpoint handled (tr : list Effect) : list (EventHandler * EnhancedEvent.t) :=
  match tr with
  | [] => []
  | Handle f ev :: tr => (f, ev) :: handled tr
  | _ :: tr => handled tr
  end.

(** The object references the metadata provider was asked about. *)
Fixpoint lookups (tr : list Effect) : list ObjectReference.t :=
  match tr with
  | [] => []
  | GetObjectMetadata ref _ _ _ :: tr => ref :: lookups tr
  | _ :: tr => lookups tr
  end.

(** The messages logged at warning level. *)
Fixpoint warnings (tr : list Effect) : list string :=
  match tr with
  | [] => []
  | Log WarnLevel _ msg :: tr => msg :: warnings tr
  | _ :: tr => warnings tr
  end.

(** How often [Inc] was called on counter [c] of the store at [store]. *)
Fixpoint increments (store : Ptr) (c : Counter) (tr : list Effect) : nat :=
  match tr with
  | [] => O
  | Inc store' c' :: tr =>
      if bool_decide (store' = store ∧ c' = c) then S (increments store c tr)
      else increments store c tr
  | _ :: tr => increments store c tr
  end.

(** The value of a counter. *)
Definition counterOf (c : Counter) (s : Store.t) : N :=
  match c with
  | EventsProcessed => Store.EventsProcessed s
  | EventsDiscarded => Store.EventsDiscarded s
  | WatchErrors => Store.WatchErrors s
  end.

(** The value of counter [c] of the store at [store], if there is one. *)
Definition readCounter (store : Ptr) (c : Counter) (w : World) : option N :=
  counterOf c <$> stores w !! store.

(** The world a computation ends in, whether it returns or panics. *)
Definition finalWorld {A : Type} (r : Result A) : World :=
  match r with
  | Returned _ w => w
  | Panicked _ w => w
  end.

(** ** Package [sinks]: the Teams and Loki adapters *)

(** [strings.Contains]. *)
Fixpoint Contains (s substr : string) : bool :=
  if String.prefix substr s then true
  else
    match s with
    | EmptyString => false
    | String _ rest => Contains rest substr
    end.

(** [Time.Unix]: seconds since January 1, 1970 UTC. *)
Definition Unix (t : Time) : Z := t `div` Second - 62135596800.

Module Response.
(** What the adapters read of an [*http.Response]: the status code, and
    what [io.ReadAll(resp.Body)] returns; [None] is the [nil] error. *)
Record t : Type := mk {
  StatusCode : Z;
  ReadAll : string * option error
}.
End Response.

Module promtailStream.
Record t : Type := mk {
  Stream : gmap string string;
  Values : list (list string)
}.
End promtailStream.

Module LokiMsg.
Record t : Type := mk {
  Streams : list promtailStream.t
}.
End LokiMsg.

(** The library and helper functions [Send] calls. None of them is among
    the sources, so each is a parameter of the embedding; a call that
    returns a value and an error in Go returns one or the other here.
    [Layout] is the type of a layout ([map[string]interface{}]), [Request]
    the type of an [*http.Request]. *)
Record Runtime (Layout Request : Type) : Type := mkRuntime {
  (** [serializeEventWithLayout(layout, ev)] *)
  serializeEventWithLayout : Layout → EnhancedEvent.t → string + error;
  (** [GetString(ev, text)]: the template [text] applied to the event *)
  GetString : EnhancedEvent.t → string → string + error;
  (** [json.Unmarshal] of the serialized event followed by the
      [fmt.Sprintf] that builds the text of a Teams message *)
  teamsOutput : string → string;
  (** [json.Marshal] of a [map[string]string] *)
  marshalStrings : gmap string string → string + error;
  (** [json.Marshal] of a [LokiMsg] *)
  marshalLokiMsg : LokiMsg.t → string + error;
  (** [http.NewRequest(method, url, body)] *)
  NewRequest : string → string → string → Request + error;
  (** [req.Header.Add(k, v)] and [req.Header.Set(k, v)] *)
  HeaderAdd : string → string → Request → Request;
  HeaderSet : string → string → Request → Request;
  (** [req.SetBasicAuth(username, password)] *)
  SetBasicAuth : string → string → Request → Request;
  (** [http.DefaultClient.Do(req)]: a response, or a transport error *)
  Do : Request → Response.t + error
}.
Arguments serializeEventWithLayout {Layout Request} _ _ _.
Arguments GetString {Layout Request} _ _ _.
Arguments teamsOutput {Layout Request} _ _.
Arguments marshalStrings {Layout Request} _ _.
Arguments marshalLokiMsg {Layout Request} _ _.
Arguments NewRequest {Layout Request} _ _ _ _.
Arguments HeaderAdd {Layout Request} _ _ _ _.
Arguments HeaderSet {Layout Request} _ _ _ _.
Arguments SetBasicAuth {Layout Request} _ _ _ _.
Arguments Do {Layout Request} _ _.

Module TeamsConfig.
Record t (Layout : Type) : Type := mk {
  Endpoint : string;
  Layout_ : Layout;
  Headers : gmap string string
}.
Arguments mk {Layout} _ _ _.
Arguments Endpoint {Layout} _.
Arguments Layout_ {Layout} _.
Arguments Headers {Layout} _.
End TeamsConfig.

Module LokiConfig.
(** The field [TLS] is read by [NewLoki] only and is left out. *)
Record t (Layout : Type) : Type := mk {
  Layout_ : Layout;
  StreamLabels : gmap string string;
  URL : string;
  Headers : gmap string string;
  Username : string;
  Password : string
}.
Arguments mk {Layout} _ _ _ _ _ _.
Arguments Layout_ {Layout} _.
Arguments StreamLabels {Layout} _.
Arguments URL {Layout} _.
Arguments Headers {Layout} _.
Arguments Username {Layout} _.
Arguments Password {Layout} _.
End LokiConfig.

(** [func generateTimestamp() string], from the clock reading [now]. *)
Definition generateTimestamp (now : Time) : string :=
  pretty (Unix now) ++ "000000000".

(** [func containsTemplatePattern(s string) bool]. *)
Definition containsTemplatePattern (s : string) : bool :=
  Contains s "{{" && Contains s "}}".

Section Sinks.
Context {Layout Request : Type} (rt : Runtime Layout Request).

(** Lines 34 to 58 of [Teams.Send]: the request, or the error that ends
    the call before anything is sent. A [range] over a Go map visits the
    keys in no fixed order; here it is the order of [map_to_list]. *)
Definition Teams_request (cfg : TeamsConfig.t Layout) (ev : EnhancedEvent.t)
    : Request + error :=
  match serializeEventWithLayout rt (TeamsConfig.Layout_ cfg) ev with
  | inr err => inr err
  | inl event =>
      let output := teamsOutput rt event in
      match marshalStrings rt (<["summary" := "event"]> (<["text" := output]> ∅)) with
      | inr err => inr err
      | inl reqBody =>
          match NewRequest rt "POST" (TeamsConfig.Endpoint cfg) reqBody with
          | inr err => inr err
          | inl req =>
              let req := HeaderAdd rt "Content-Type" "application/json" req in
              inl (foldl (λ req kv, HeaderAdd rt kv.1 kv.2 req) req
                     (map_to_list (TeamsConfig.Headers cfg)))
          end
      end
  end.

(** [func (w *Teams) Send(ctx context.Context, ev *kube.EnhancedEvent) error];
    [None] is the [nil] error. *)
Definition Teams_Send (cfg : TeamsConfig.t Layout) (ev : EnhancedEvent.t)
    : option error :=
  match Teams_request cfg ev with
  | inr err => Some err
  | inl req =>
      match Do rt req with
      | inr err => None
      | inl resp =>
          let '(message, err) := Response.ReadAll resp in
          match err with
          | Some err => Some err
          | None =>
              if negb (Response.StatusCode resp =? 200) then
                Some (errorString ("not 200: " ++ message))
              else if Contains message "Microsoft Teams endpoint returned HTTP error 429" then
                Some (errorString ("rate limited: " ++ message))
              else None
          end
      end
  end.

(** The body of the loop over [l.cfg.StreamLabels]: the value stored for
    one label. *)
Definition processLabel (ev : EnhancedEvent.t) (v : string) : string :=
  if containsTemplatePattern v then
    match GetString rt ev v with
    | inr err => v
    | inl processed => processed
    end
  else v.

(** Lines 64 to 120 of [Loki.Send]: the request, or the error that ends the
    call before anything is sent. *)
Definition Loki_request (cfg : LokiConfig.t Layout) (now : Time)
    (ev : EnhancedEvent.t) : Request + error :=
  match serializeEventWithLayout rt (LokiConfig.Layout_ cfg) ev with
  | inr err => inr err
  | inl eventBody =>
      let timestamp := generateTimestamp now in
      let processedLabels := processLabel ev <$> LokiConfig.StreamLabels cfg in
      let a :=
        LokiMsg.mk [promtailStream.mk processedLabels [[timestamp; eventBody]]] in
      match marshalLokiMsg rt a with
      | inr err => inr err
      | inl reqBody =>
          match NewRequest rt "POST" (LokiConfig.URL cfg) reqBody with
          | inr err => inr err
          | inl req =>
              let req := HeaderSet rt "Content-Type" "application/json" req in
              let req :=
                if negb (String.eqb (LokiConfig.Username cfg) "")
                   && negb (String.eqb (LokiConfig.Password cfg) "")
                then SetBasicAuth rt (LokiConfig.Username cfg) (LokiConfig.Password cfg) req
                else req in
              inl (foldl
                     (λ req kv,
                        match GetString rt ev kv.2 with
                        | inr err => HeaderAdd rt kv.1 kv.2 req
                        | inl realValue => HeaderAdd rt kv.1 realValue req
                        end)
                     req (map_to_list (LokiConfig.Headers cfg)))
          end
      end
  end.

(** [func (l *Loki) Send(ctx context.Context, ev *kube.EnhancedEvent) error]. *)
Definition Loki_Send (cfg : LokiConfig.t Layout) (now : Time)
    (ev : EnhancedEvent.t) : option error :=
  match Loki_request cfg now ev with
  | inr err => Some err
  | inl req =>
      match Do rt req with
      | inr err => Some err
      | inl resp =>
          let '(body, err) := Response.ReadAll resp in
          match err with
          | Some err => Some err
          | None =>
              if negb ((200 <=? Response.StatusCode resp)
                       && (Response.StatusCode resp <? 300)) then
                Some (errorString ("not successfull (2xx) response: " ++ body))
              else None
          end
      end
  end.

End Sinks.

(** ** The scenarios of the specification, as concrete inputs *)

Module Scenario.

(** [Pod/default/web-1]. *)
Definition webPod : ObjectReference.t :=
  ObjectReference.mk "Pod" "default" "web-1" "7f3c" "v1" "41" "".

Definition kubelet : ManagedFieldsEntry.t :=
  ManagedFieldsEntry.mk "kubelet" "Update" "v1" None "FieldsV1" "{}" "".

(** The clock when the event is processed. *)
Definition now : Time := 63900000000 * Second.

(** An event with [reason="Failed"] about the pod, last seen at [last]. *)
Definition failed (last : Time) : Event.t :=
  Event.mk "web-1.17a" "default" [kubelet] webPod "Failed" "Back-off restarting"
    last last 1 "Warning" 0 None.

(** The same event as part of a series last observed at [observed]. *)
Definition failedSeries (last observed : Time) : Event.t :=
  Event.mk "web-1.17a" "default" [kubelet] webPod "Failed" "Back-off restarting"
    last last 3 "Warning" (last - Second) (Some (EventSeries.mk 3 observed)).

Definition podMetadata : ObjectMetadata.t :=
  ObjectMetadata.mk (<["owner" := "team-a"]> ∅) (<["app" := "web"]> ∅)
    [OwnerReference.mk "apps/v1" "ReplicaSet" "web" "91ab" (Some true) None]
    false.

(** Three providers: one that resolves the pod, one that reports it
    gone, one that fails for another reason. *)
Definition resolving : ObjectMetadataProvider :=
  mkProvider (λ _ _ _ _, (podMetadata, None)).
Definition gone : ObjectMetadataProvider :=
  mkProvider (λ _ _ _ _,
    (ObjectMetadata.mk ∅ ∅ [] false, Some (StatusNotFound "pods web-1 not found"))).
Definition failing : ObjectMetadataProvider :=
  mkProvider (λ _ _ _ _, (podMetadata, Some (errorString "connection refused"))).

(** A watcher whose store is at address 1 and whose handler is at 7. *)
Definition watcher (provider : ObjectMetadataProvider) (omit : bool)
    (maxAge : Z) : EventWatcher :=
  NewEventWatcher (3%nat, 4%nat) maxAge 1%nat 7%nat omit provider.

(** A second watcher, with a store and a handler of its own. *)
Definition otherWatcher (maxAge : Z) : EventWatcher :=
  NewEventWatcher (3%nat, 4%nat) maxAge 2%nat 8%nat true resolving.

(** A world that started at [start], holds event [ev] at address 5 and two
    fresh stores at addresses 1 and 2. *)
Definition world (start : Time) (ev : Event.t) : World :=
  mkWorld start (<[5%nat := ev]> ∅)
    (<[1%nat := Store.fresh]> (<[2%nat := Store.fresh]> ∅)) [].

(** The event of the scenarios: ten seconds old. *)
Definition recent : Event.t := failed (now - 10 * Second).

(** An event first seen 400 seconds ago whose series was last observed two
    seconds ago. *)
Definition repeated : Event.t :=
  failedSeries (now - 400 * Second) (now - 2 * Second).

(** Watchers with a maximum age of 300 and of 5 seconds. *)
Definition lenient : EventWatcher := watcher resolving false 300.
Definition strict : EventWatcher := watcher resolving false 5.

(** A process that started ten minutes ago, and one that started three
    seconds ago, both holding the event [recent]. *)
Definition steady : World := world (now - 600 * Second) recent.

(** A runtime whose server answers every request with [status] and [body]. *)
Definition answering (status : Z) (body : string) : Runtime unit string :=
  mkRuntime unit string
    (λ _ ev, inl (Event.Message (EnhancedEvent.Event ev)))
    (λ _ text, inl text)
    (λ event, "Event: " ++ event)
    (λ m, inl (default "" (m !! "text")))
    (λ _, inl "{}")
    (λ _ url body, inl (url ++ " " ++ body))
    (λ _ _ req, req)
    (λ _ _ req, req)
    (λ _ _ req, req)
    (λ _, inl (Response.mk status (body, None))).

(** A runtime whose requests never reach a server. *)
Definition unreachable : Runtime unit string :=
  mkRuntime unit string
    (λ _ ev, inl (Event.Message (EnhancedEvent.Event ev)))
    (λ _ text, inl text)
    (λ event, "Event: " ++ event)
    (λ m, inl (default "" (m !! "text")))
    (λ _, inl "{}")
    (λ _ url body, inl (url ++ " " ++ body))
    (λ _ _ req, req)
    (λ _ _ req, req)
    (λ _ _ req, req)
    (λ _, inr (errorString "dial tcp: connection refused")).

Definition teams : TeamsConfig.t unit :=
  TeamsConfig.mk "https://teams.example/hook" tt ∅.

Definition loki : LokiConfig.t unit :=
  LokiConfig.mk tt (<["app" := "exporter"]> ∅) "https://loki.example/push" ∅ "" "".

(** The enriched event a sink is handed. *)
Definition enhanced : EnhancedEvent.t :=
  EnhancedEvent.mk (failed (now - 10 * Second)) ""
    (EnhancedObjectReference.mk webPod ∅ ∅ [] false).

End Scenario.

(** ** What the log calls of the watcher leave in the trace *)

(** The warning of [isEventDiscarded]. *)
Definition discardWarning (event : Event.t) (eventAge : Duration) : Effect :=
  Log WarnLevel
    [StrDuration "event age" eventAge;
     Str "event namespace" (Event.Namespace event);
     Str "event name" (Event.Name event)]
    "Event discarded as being older than maxEventAgeSeconds".

(** The debug line of [onEvent]. *)
Definition receivedLog (event : Event.t) : Effect :=
  Log DebugLevel
    [Str "msg" (Event.Message event);
     Str "namespace" (Event.Namespace event);
     Str "reason" (Event.Reason event);
     Str "involvedObject" (ObjectReference.Name (Event.InvolvedObject event))]
    "Received event".

(** The error line of [onEvent] for a failed lookup. *)
Definition lookupErrorLog (err : error) : Effect :=
  Log ErrorLevel [Err err]
    (if IsNotFound err then "Object not found, likely deleted"
     else "Failed to get object metadata").

(** The world [onEvent] leaves behind for an event [raw] that passes the age
    filter, from world [w] in which the watcher's store holds [s]: [mid] is
    what enrichment adds to the trace, [ev] what the handler is given. *)
Definition keptWorld (e : EventWatcher) (w : World) (raw : Event.t) (s : Store.t)
    (mid : list Effect) (ev : EnhancedEvent.t) : World :=
  mkWorld (startUpTime w) (events w)
    (<[metricsStore e := incCounter EventsProcessed s]> (stores w))
    (trace w ++ [receivedLog raw; Inc (metricsStore e) EventsProcessed]
       ++ mid ++ [Handle (fn e) ev]).

(** ** The informer's calls, in sequence *)

(** One call of the informer on the watcher it was given with
    [informer.AddEventHandler(watcher)]: the three methods of
    [cache.ResourceEventHandler]. An informer makes these calls one after
    the other, in the order of the stream. *)
Inductive Callback : Type :=
| Added (obj : Object) (isInInitialList : bool)
| Updated (oldObj newObj : Object)
| Removed (obj : Object).

(** The method a callback runs; [now] is the clock while it runs. *)
Definition deliver (e : EventWatcher) (now : Time) (c : Callback) : Go unit :=
  match c with
  | Added obj isInInitialList => OnAdd e now obj isInInitialList
  | Updated oldObj newObj => OnUpdate e now oldObj newObj
  | Removed obj => OnDelete e obj
  end.

(** A stream of callbacks, each with the clock at which it runs. *)
Fixpoint deliverAll (e : EventWatcher) (cs : list (Time * Callback)) : Go unit :=
  match cs with
  | [] => mret tt
  | (now, c) :: cs => deliver e now c;; deliverAll e cs
  end.

(** The object a callback makes the watcher look at: none for a removal. *)
Definition carried (c : Callback) : option Object :=
  match c with
  | Added obj _ => Some obj
  | Updated _ newObj => Some newObj
  | Removed _ => None
  end.

(** The event record a callback makes the watcher look at, among the
    records [heap]. *)
Definition observed (heap : gmap Ptr Event.t) (c : Callback) : option Event.t :=
  match carried c with
  | Some (EventObject event) => heap !! event
  | _ => None
  end.

(** A callback the watcher can run without a panic: a removal, or an add or
    update that carries a pointer to an event record. *)
Definition deliverable (heap : gmap Ptr Event.t) (c : Callback) : Prop :=
  match carried c with
  | Some _ => is_Some (observed heap c)
  | None => True
  end.

(** The event of a callback, when it passes the age filter of [e]. *)
Definition shown (e : EventWatcher) (heap : gmap Ptr Event.t)
    (nc : Time * Callback) : option Event.t :=
  match observed heap nc.2 with
  | Some raw =>
      if maxEventAgeSeconds e <? Since nc.1 (timestampOf raw) then None
      else Some raw
  | None => None
  end.

(** The callback shows an event that is too old and whose timestamp is
    after the process start time [start]. *)
Definition reported (e : EventWatcher) (heap : gmap Ptr Event.t) (start : Time)
    (nc : Time * Callback) : bool :=
  match observed heap nc.2 with
  | Some raw =>
      (maxEventAgeSeconds e <? Since nc.1 (timestampOf raw))
      && After (timestampOf raw) start
  | None => false
  end.

(** What [onEvent] hands to the handler for the raw event [raw]: the copy
    without managed fields, with the reference and the metadata that the
    three branches of lines 120 to 139 leave in it. *)
Definition enhance (e : EventWatcher) (raw : Event.t) : EnhancedEvent.t :=
  let reference := ObjectReference.DeepCopy (Event.InvolvedObject raw) in
  EnhancedEvent.mk (Event.clearManagedFields (Event.DeepCopy raw)) ""
    (if omitLookup e then EnhancedObjectReference.mk reference ∅ ∅ [] false
     else
       match provide (objectMetadataCache e) (Event.InvolvedObject raw)
               (clientset e) (dynamicClient e) (metricsStore e) with
       | (_, Some err) =>
           EnhancedObjectReference.mk reference ∅ ∅ [] (IsNotFound err)
       | (objectMetadata, None) =>
           EnhancedObjectReference.mk reference
             (ObjectMetadata.Labels objectMetadata)
             (ObjectMetadata.Annotations objectMetadata)
             (ObjectMetadata.OwnerReferences objectMetadata)
             (ObjectMetadata.Deleted objectMetadata)
       end).

(** The store of a watcher after a stream: [kept] events processed and
    [told] discards reported. *)
Definition tally (kept told : nat) (s : Store.t) : Store.t :=
  Store.mk (Store.EventsProcessed s + N.of_nat kept)
    (Store.EventsDiscarded s + N.of_nat told)
    (Store.WatchErrors s) (Store.SendErrors s)
    (Store.KubeApiReadCacheHits s) (Store.KubeApiReadRequests s).

(** The events of a stream that pass the age filter, in stream order. *)
Definition keptEvents (e : EventWatcher) (heap : gmap Ptr Event.t)
    (cs : list (Time * Callback)) : list Event.t :=
  omap (shown e heap) cs.

(** How many callbacks of a stream show an event that is too old and whose
    timestamp is after the process start time. *)
Definition reports (e : EventWatcher) (heap : gmap Ptr Event.t) (start : Time)
    (cs : list (Time * Callback)) : nat :=
  length (List.filter (reported e heap start) cs).

Module Backlog.

(** A process that started ten minutes ago and holds three events: one ten
    seconds old, one from fifteen minutes ago, before the start, and one
    from 400 seconds ago, after the start. *)
Definition world : World :=
  mkWorld (Scenario.now - 600 * Second)
    (<[5%nat := Scenario.recent]>
       (<[6%nat := Scenario.failed (Scenario.now - 900 * Second)]>
          (<[7%nat := Scenario.failed (Scenario.now - 400 * Second)]> ∅)))
    (<[1%nat := Store.fresh]> (<[2%nat := Store.fresh]> ∅)) [].

(** What the informer calls: the three events are added, the first one is
    removed and then updated, with a clock that advances by a second. *)
Definition stream : list (Time * Callback) :=
  [(Scenario.now, Added (EventObject 5%nat) true);
   (Scenario.now, Added (EventObject 6%nat) true);
   (Scenario.now, Added (EventObject 7%nat) false);
   (Scenario.now + Second, Removed (EventObject 5%nat));
   (Scenario.now + 2 * Second, Updated (OtherObject "string") (EventObject 5%nat))].

End Backlog.

(** ** The label loop of [Loki.Send] *)

Section LabelLoop.
Context {Layout Request : Type} (rt : Runtime Layout Request).

(** Lines 71 to 87 of [Loki.Send] as the loop they are: [processedLabels]
    starts empty and each iteration stores one entry; [visit] is the order
    in which the [range] visits the entries of [l.cfg.StreamLabels]. *)
Definition processLabels (ev : EnhancedEvent.t) (visit : list (string * string))
    : gmap string string :=
  foldl (λ processedLabels kv, <[kv.1 := processLabel rt ev kv.2]> processedLabels)
    ∅ visit.

End LabelLoop.

(** ** Package [metrics]: creating and destroying a store *)

Module Registry.

(** The default Prometheus registry, as far as this package meets it: the
    names of the metrics that are registered with it. *)
Definition t := gset string.

(** Why a [promauto] constructor panics: the registry refused the metric
    because its name is invalid, or because a metric of that name is
    registered already. *)
Inductive Refusal : Type :=
| InvalidName (name : string)
| AlreadyRegistered (name : string).

(** The outcome of a function that works on the registry. *)
Inductive Outcome (A : Type) : Type :=
| Done (a : A) (registry : t)
| Panic (why : Refusal) (registry : t).
Arguments Done {A} a registry.
Arguments Panic {A} why registry.

Definition M (A : Type) : Type := t → Outcome A.

#[global] Instance M_ret : MRet M := λ A a registry, Done a registry.

#[global] Instance M_bind : MBind M := λ A B f m registry,
  match m registry with
  | Done a registry' => f a registry'
  | Panic why registry' => Panic why registry'
  end.

End Registry.

(** What [metrics.NewMetricsStore] returns: the counters, and the prefix of
    the names under which its collectors are registered. *)
Record MetricsStore : Type := mkMetricsStore {
  namePrefix : string;
  counters : Store.t
}.

Section Metrics.
(** Which metric names the registry accepts; the rule belongs to the
    Prometheus client and is a parameter here. *)
Context (validName : string → bool).

(** A [promauto] constructor ([NewCounter], [NewGaugeFunc]): it registers
    the new metric and panics when the registry refuses it. *)
Definition promauto (name : string) : Registry.M unit := λ registry,
  if negb (validName name) then Registry.Panic (Registry.InvalidName name) registry
  else if bool_decide (name ∈ registry) then
    Registry.Panic (Registry.AlreadyRegistered name) registry
  else Registry.Done tt ({[name]} ∪ registry).

(** [prometheus.Unregister]: whether the metric was registered. *)
Definition Unregister (name : string) : Registry.M bool := λ registry,
  Registry.Done (bool_decide (name ∈ registry)) (registry ∖ {[name]}).

(** [func NewMetricsStore(name_prefix string) *Store]: the fields of the
    struct literal are evaluated, and so registered, from top to bottom. *)
Definition NewMetricsStore (name_prefix : string) : Registry.M MetricsStore :=
  promauto (name_prefix ++ "build_info");;
  promauto (name_prefix ++ "events_sent");;
  promauto (name_prefix ++ "events_discarded");;
  promauto (name_prefix ++ "watch_errors");;
  promauto (name_prefix ++ "send_event_errors");;
  promauto (name_prefix ++ "kube_api_read_cache_hits");;
  promauto (name_prefix ++ "kube_api_read_cache_misses");;
  mret (mkMetricsStore name_prefix Store.fresh).

(** [func DestroyMetricsStore(store *Store)]. A collector is unregistered by
    the descriptors it carries, that is by its name. The final [store = nil]
    assigns to the parameter and has no effect outside. *)
Definition DestroyMetricsStore (store : MetricsStore) : Registry.M unit :=
  Unregister (namePrefix store ++ "events_sent");;
  Unregister (namePrefix store ++ "events_discarded");;
  Unregister (namePrefix store ++ "watch_errors");;
  Unregister (namePrefix store ++ "send_event_errors");;
  Unregister (namePrefix store ++ "build_info");;
  Unregister (namePrefix store ++ "kube_api_read_cache_hits");;
  Unregister (namePrefix store ++ "kube_api_read_cache_misses");;
  mret tt.

End Metrics.

(** The seven metric names of a store, without the prefix. *)
Definition metricNames : list string :=
  ["build_info"; "events_sent"; "events_discarded"; "watch_errors";
   "send_event_errors"; "kube_api_read_cache_hits"; "kube_api_read_cache_misses"].

(** The names a store with prefix [name_prefix] registers. *)
Definition storeNames (name_prefix : string) : list string :=
  (λ name, name_prefix ++ name) <$> metricNames.

(** The string and all its proper suffixes. *)
Fixpoint tails (s : string) : list string :=
  s :: match s with
       | EmptyString => []
       | String _ rest => tails rest
       end.

(** * Properties *)

Local Open Scope list_scope.

(** ** Copies, clocks and traces *)

Lemma ObjectReference_DeepCopy_id (r : ObjectReference.t) :
  ObjectReference.DeepCopy r = r.
Proof. by destruct r. Qed.



(** Saturation of [Time.Sub] cannot be told from the exact difference by a
    comparison with an [int64] below the largest one. *)
Lemma Since_exceeds (now t : Time) (d : Duration) :
  inInt64 d → d ≠ maxDuration → (d < Since now t ↔ d < now - t).
Proof.
  unfold inInt64, Since, Sub, maxDuration, minDuration. intros [Hlo Hhi] Hne.
  destruct (Z.ltb_spec (2 ^ 63 - 1) (now - t)); [lia|].
  destruct (Z.ltb_spec (now - t) (- 2 ^ 63)); lia.
Qed.

Lemma wrap64_inInt64 (z : Z) : inInt64 (wrap64 z).
Proof.
  unfold inInt64, wrap64, minDuration, maxDuration.
  pose proof (Z.mod_pos_bound (z + 2 ^ 63) (2 ^ 64) ltac:(lia)). lia.
Qed.

(** The age limit [NewEventWatcher] computes is a multiple of 512 in [int64],
    hence never the largest [Duration]. *)
Lemma mulDuration_Second_bounds (seconds : Z) :
  inInt64 (mulDuration Second seconds) ∧ mulDuration Second seconds ≠ maxDuration.
Proof.
  split; [apply wrap64_inInt64|].
  unfold mulDuration, wrap64, Second, maxDuration. intros Heq.
  pose proof (Z.div_mod (1000000000 * seconds + 2 ^ 63) (2 ^ 64) ltac:(lia)) as Hdiv.
  lia.
Qed.

Lemma handled_app (tr1 tr2 : list Effect) :
  handled (tr1 ++ tr2) = handled tr1 ++ handled tr2.
Proof.
  induction tr1 as [|x tr1 IH]; [done|].
  destruct x; cbn [app handled]; by rewrite ?IH.
Qed.

Lemma lookups_app (tr1 tr2 : list Effect) :
  lookups (tr1 ++ tr2) = lookups tr1 ++ lookups tr2.
Proof.
  induction tr1 as [|x tr1 IH]; [done|].
  destruct x; cbn [app lookups]; by rewrite ?IH.
Qed.

Lemma warnings_app (tr1 tr2 : list Effect) :
  warnings (tr1 ++ tr2) = warnings tr1 ++ warnings tr2.
Proof.
  induction tr1 as [|x tr1 IH]; [done|].
  destruct x as [[] ? ?| | |]; cbn [app warnings]; by rewrite ?IH.
Qed.

Lemma increments_app (store : Ptr) (c : Counter) (tr1 tr2 : list Effect) :
  increments store c (tr1 ++ tr2)
  = (increments store c tr1 + increments store c tr2)%nat.
Proof.
  induction tr1 as [|x tr1 IH]; [done|].
  destruct x as [| st c' | |]; cbn [app increments]; rewrite ?IH; try done.
  by case_bool_decide.
Qed.

(** ** Running the watcher *)

(** Unfolds the monad and the primitive operations of the world. *)
Ltac run :=
  unfold mbind, mret, Go_bind, Go_ret, loadEvent, readStartUpTime, log,
    callHandler, callGetObjectMetadata, emit, inc, panic;
  cbn beta iota.

Section Running.
Context (e : EventWatcher) (now : Time) (p : Ptr) (w : World) (raw : Event.t).
Hypothesis Hraw : events w !! p = Some raw.

Lemma isEventDiscarded_fresh :
  Since now (timestampOf raw) <= maxEventAgeSeconds e →
  isEventDiscarded e now p w = Returned false w.
Proof.
  intros Hage. unfold isEventDiscarded. run. rewrite Hraw.
  destruct (Z.ltb_spec (maxEventAgeSeconds e) (Since now (timestampOf raw))); [lia|done].
Qed.

Lemma isEventDiscarded_silent :
  maxEventAgeSeconds e < Since now (timestampOf raw) →
  After (timestampOf raw) (startUpTime w) = false →
  isEventDiscarded e now p w = Returned true w.
Proof.
  intros Hage Hbefore. unfold isEventDiscarded. run. rewrite Hraw.
  destruct (Z.ltb_spec (maxEventAgeSeconds e) (Since now (timestampOf raw))); [|lia].
  by rewrite Hbefore.
Qed.

Lemma isEventDiscarded_counted (s : Store.t) :
  stores w !! metricsStore e = Some s →
  maxEventAgeSeconds e < Since now (timestampOf raw) →
  After (timestampOf raw) (startUpTime w) = true →
  isEventDiscarded e now p w =
    Returned true
      (mkWorld (startUpTime w) (events w)
         (<[metricsStore e := incCounter EventsDiscarded s]> (stores w))
         (trace w ++ [discardWarning raw (Since now (timestampOf raw));
                      Inc (metricsStore e) EventsDiscarded])).
Proof.
  intros Hs Hage Hafter. unfold isEventDiscarded. run. rewrite Hraw.
  destruct (Z.ltb_spec (maxEventAgeSeconds e) (Since now (timestampOf raw))); [|lia].
  rewrite Hafter. cbn. rewrite Hs. by rewrite <- app_assoc.
Qed.

Lemma onEvent_discarded (w' : World) :
  isEventDiscarded e now p w = Returned true w' →
  onEvent e now p w = Returned tt w'.
Proof. intros Hd. unfold onEvent. run. by rewrite Hd. Qed.

End Running.

Section Kept.
Context (e : EventWatcher) (now : Time) (p : Ptr) (w : World)
  (raw : Event.t) (s : Store.t).
Hypothesis Hraw : events w !! p = Some raw.
Hypothesis Hstore : stores w !! metricsStore e = Some s.
Hypothesis Hage : Since now (timestampOf raw) <= maxEventAgeSeconds e.

Lemma onEvent_omitLookup :
  omitLookup e = true →
  onEvent e now p w =
    Returned tt
      (keptWorld e w raw s []
         (EnhancedEvent.mk (Event.clearManagedFields (Event.DeepCopy raw)) ""
            (EnhancedObjectReference.mk
               (ObjectReference.DeepCopy (Event.InvolvedObject raw)) ∅ ∅ [] false))).
Proof.
  intros Homit. unfold onEvent. run.
  rewrite (isEventDiscarded_fresh e now p w raw Hraw Hage). run.
  rewrite Hraw. cbn. rewrite Hstore, Homit. cbn.
  unfold keptWorld. by rewrite <- !app_assoc.
Qed.

Lemma onEvent_lookup_failed (meta : ObjectMetadata.t) (err : error) :
  omitLookup e = false →
  provide (objectMetadataCache e) (Event.InvolvedObject raw) (clientset e)
    (dynamicClient e) (metricsStore e) = (meta, Some err) →
  onEvent e now p w =
    Returned tt
      (keptWorld e w raw s
         [GetObjectMetadata (Event.InvolvedObject raw) (clientset e)
            (dynamicClient e) (metricsStore e);
          lookupErrorLog err]
         (EnhancedEvent.mk (Event.clearManagedFields (Event.DeepCopy raw)) ""
            (EnhancedObjectReference.mk
               (ObjectReference.DeepCopy (Event.InvolvedObject raw)) ∅ ∅ []
               (IsNotFound err)))).
Proof.
  intros Homit Hreply. unfold onEvent. run.
  rewrite (isEventDiscarded_fresh e now p w raw Hraw Hage). run.
  rewrite Hraw. cbn. rewrite Hstore, Homit. cbn. rewrite Hreply.
  unfold keptWorld, lookupErrorLog.
  destruct (IsNotFound err); cbn; by rewrite <- !app_assoc.
Qed.

Lemma onEvent_lookup_resolved (meta : ObjectMetadata.t) :
  omitLookup e = false →
  provide (objectMetadataCache e) (Event.InvolvedObject raw) (clientset e)
    (dynamicClient e) (metricsStore e) = (meta, None) →
  onEvent e now p w =
    Returned tt
      (keptWorld e w raw s
         [GetObjectMetadata (Event.InvolvedObject raw) (clientset e)
            (dynamicClient e) (metricsStore e)]
         (EnhancedEvent.mk (Event.clearManagedFields (Event.DeepCopy raw)) ""
            (EnhancedObjectReference.mk
               (ObjectReference.DeepCopy (Event.InvolvedObject raw))
               (ObjectMetadata.Labels meta) (ObjectMetadata.Annotations meta)
               (ObjectMetadata.OwnerReferences meta) (ObjectMetadata.Deleted meta)))).
Proof.
  intros Homit Hreply. unfold onEvent. run.
  rewrite (isEventDiscarded_fresh e now p w raw Hraw Hage). run.
  rewrite Hraw. cbn. rewrite Hstore, Homit. cbn. rewrite Hreply.
  unfold keptWorld. cbn. by rewrite <- !app_assoc.
Qed.

(** Whatever enrichment does, the event reaches the handler, once. *)
Lemma onEvent_kept :
  ∃ mid ev, onEvent e now p w = Returned tt (keptWorld e w raw s mid ev)
    ∧ handled mid = []
    ∧ increments (metricsStore e) EventsProcessed mid = O
    ∧ lookups mid = (if omitLookup e then [] else [Event.InvolvedObject raw])
    ∧ EnhancedEvent.Event ev = Event.clearManagedFields (Event.DeepCopy raw)
    ∧ EnhancedObjectReference.ObjectReference (EnhancedEvent.InvolvedObject ev)
      = ObjectReference.DeepCopy (Event.InvolvedObject raw).
Proof.
  destruct (omitLookup e) eqn:Homit.
  - eexists _, _. split; [by apply onEvent_omitLookup|]. done.
  - destruct (provide (objectMetadataCache e) (Event.InvolvedObject raw)
      (clientset e) (dynamicClient e) (metricsStore e)) as [meta [err|]] eqn:Hreply.
    + eexists _, _. split; [by eapply onEvent_lookup_failed|]. done.
    + eexists _, _. split; [by eapply onEvent_lookup_resolved|]. done.
Qed.

End Kept.

(** The first scenario of the specification: the event is ten seconds old
    and the maximum age is 300 seconds. The handler is called once, with
    the labels the provider resolved, and nothing is discarded. *)
Example scenario_event_kept :
  ∃ w' ev,
    onEvent Scenario.lenient Scenario.now 5%nat Scenario.steady = Returned tt w'
    ∧ readCounter 1%nat EventsDiscarded w' = Some 0%N
    ∧ readCounter 1%nat EventsProcessed w' = Some 1%N
    ∧ lookups (trace w') = [Scenario.webPod]
    ∧ handled (trace w') = [(7%nat, ev)]
    ∧ EnhancedObjectReference.Labels (EnhancedEvent.InvolvedObject ev)
      = ObjectMetadata.Labels Scenario.podMetadata.
Proof.
  eexists _, _. split; [by vm_compute|]. by vm_compute.
Qed.

(** A notification that carries no event, and a watcher without a store,
    end in a panic. *)
Example scenario_panics :
  OnAdd Scenario.lenient Scenario.now (OtherObject "string") false Scenario.steady
  = Panicked "interface conversion: interface {} is string, not *v1.Event"
      Scenario.steady
  ∧ onEvent (NewEventWatcher (3%nat, 4%nat) 300 9%nat 7%nat true Scenario.resolving)
      Scenario.now 5%nat Scenario.steady
    = Panicked "invalid memory address or nil pointer dereference"
        (mkWorld (startUpTime Scenario.steady) (events Scenario.steady)
           (stores Scenario.steady) [receivedLog Scenario.recent]).
Proof. by vm_compute. Qed.

(** ** The age filter *)

Lemma readCounter_insert (w : World) (st : Ptr) (s : Store.t) (c : Counter)
    (tr : list Effect) :
  readCounter st c (mkWorld (startUpTime w) (events w) (<[st := s]> (stores w)) tr)
  = Some (counterOf c s).
Proof. unfold readCounter. cbn. by rewrite lookup_insert_eq. Qed.




(** C3. The timestamp of the age filter is the series' last-observed time
    when the event has a series and that time is not zero; otherwise the
    last-timestamp field when it is not zero; otherwise the event time. The
    event is discarded exactly when the clock minus that timestamp exceeds
    the maximum age. *)
Theorem age_filter_priority (e : EventWatcher) (now : Time) (p : Ptr)
    (w : World) (raw : Event.t) (s : Store.t) :
  events w !! p = Some raw →
  stores w !! metricsStore e = Some s →
  inInt64 (maxEventAgeSeconds e) →
  maxEventAgeSeconds e ≠ maxDuration →
  (∀ series, Event.Series raw = Some series →
     EventSeries.LastObservedTime series ≠ 0 →
     timestampOf raw = EventSeries.LastObservedTime series)
  ∧ ((Event.Series raw = None
      ∨ ∃ series, Event.Series raw = Some series
          ∧ EventSeries.LastObservedTime series = 0) →
     (Event.LastTimestamp raw ≠ 0 → timestampOf raw = Event.LastTimestamp raw)
     ∧ (Event.LastTimestamp raw = 0 → timestampOf raw = Event.EventTime raw))
  ∧ ∃ w', isEventDiscarded e now p w
          = Returned (bool_decide (maxEventAgeSeconds e < now - timestampOf raw)) w'.
Proof.
  intros Hraw Hs Hrange Hmax. split; [|split].
  - intros series Hseries Hnz. unfold timestampOf, IsZero. rewrite Hseries.
    destruct (Z.eqb_spec (EventSeries.LastObservedTime series) 0); [lia|done].
  - intros Hnone.
    assert (Hrest : timestampOf raw =
      if negb (IsZero (Event.LastTimestamp raw)) then Event.LastTimestamp raw
      else Event.EventTime raw).
    { unfold timestampOf. destruct Hnone as [->|(series & -> & Hz)]; [done|].
      unfold IsZero at 3. by rewrite Hz. }
    rewrite Hrest. unfold IsZero.
    destruct (Z.eqb_spec (Event.LastTimestamp raw) 0); cbn; split; intros; lia || done.
  - pose proof (Since_exceeds now (timestampOf raw) _ Hrange Hmax) as Hexact.
    destruct (Z.lt_ge_cases (maxEventAgeSeconds e) (Since now (timestampOf raw)))
      as [Hold|Hfresh].
    + rewrite bool_decide_eq_true_2 by by apply Hexact.
      destruct (After (timestampOf raw) (startUpTime w)) eqn:Hafter.
      * eexists. by apply (isEventDiscarded_counted e now p w raw Hraw s).
      * eexists. by apply (isEventDiscarded_silent e now p w raw Hraw).
    + rewrite bool_decide_eq_false_2 by (rewrite <- Hexact; lia).
      eexists. by apply (isEventDiscarded_fresh e now p w raw Hraw).
Qed.


Lemma age_filter_priority_witness :
  (events (Scenario.world (Scenario.now - 600 * Second) Scenario.repeated) !! 5%nat
   = Some Scenario.repeated
   ∧ stores (Scenario.world (Scenario.now - 600 * Second) Scenario.repeated)
       !! metricsStore Scenario.lenient = Some Store.fresh
   ∧ inInt64 (maxEventAgeSeconds Scenario.lenient)
   ∧ maxEventAgeSeconds Scenario.lenient ≠ maxDuration)
  ∧ timestampOf Scenario.repeated
    = EventSeries.LastObservedTime (EventSeries.mk 3 (Scenario.now - 2 * Second))
  ∧ ∃ w', isEventDiscarded Scenario.lenient Scenario.now 5%nat
            (Scenario.world (Scenario.now - 600 * Second) Scenario.repeated)
          = Returned
              (bool_decide (maxEventAgeSeconds Scenario.lenient
                            < Scenario.now - timestampOf Scenario.repeated)) w'.
Proof.
  assert (Hev : events (Scenario.world (Scenario.now - 600 * Second) Scenario.repeated)
                  !! 5%nat = Some Scenario.repeated) by (vm_compute; reflexivity).
  assert (Hst : stores (Scenario.world (Scenario.now - 600 * Second) Scenario.repeated)
                  !! metricsStore Scenario.lenient = Some Store.fresh)
    by (vm_compute; reflexivity).
  assert (Hlo : inInt64 (maxEventAgeSeconds Scenario.lenient))
    by (vm_compute; split; discriminate).
  assert (Hne : maxEventAgeSeconds Scenario.lenient ≠ maxDuration)
    by (vm_compute; discriminate).
  destruct (age_filter_priority Scenario.lenient Scenario.now 5%nat
              (Scenario.world (Scenario.now - 600 * Second) Scenario.repeated)
              Scenario.repeated Store.fresh Hev Hst Hlo Hne)
    as (Hseries & _ & Hrun).
  split; [exact (conj Hev (conj Hst (conj Hlo Hne)))|]. split; [|exact Hrun].
  apply (Hseries (EventSeries.mk 3 (Scenario.now - 2 * Second)));
    vm_compute; [reflexivity|discriminate].
Defined.

(** ** Enrichment *)

Lemma handled_keptWorld (e : EventWatcher) (w : World) (raw : Event.t)
    (s : Store.t) (mid : list Effect) (ev : EnhancedEvent.t) :
  handled mid = [] →
  handled (trace (keptWorld e w raw s mid ev)) = handled (trace w) ++ [(fn e, ev)].
Proof.
  intros Hmid. unfold keptWorld. cbn [trace].
  rewrite !handled_app, Hmid. reflexivity.
Qed.

Lemma lookups_keptWorld (e : EventWatcher) (w : World) (raw : Event.t)
    (s : Store.t) (mid : list Effect) (ev : EnhancedEvent.t) :
  lookups (trace (keptWorld e w raw s mid ev)) = lookups (trace w) ++ lookups mid.
Proof.
  unfold keptWorld. cbn [trace]. rewrite !lookups_app. cbn.
  by rewrite app_nil_r.
Qed.

(** C4. When the metadata lookup fails, the handler is still called, with an
    event whose labels, annotations and owner references are empty and
    whose object reference is the one of the raw event; the deletion flag
    is set exactly when the error is a not-found error. *)
Theorem lookup_failure_still_handled (e : EventWatcher) (now : Time) (p : Ptr)
    (w : World) (raw : Event.t) (s : Store.t) (meta : ObjectMetadata.t)
    (err : error) :
  events w !! p = Some raw →
  stores w !! metricsStore e = Some s →
  Since now (timestampOf raw) <= maxEventAgeSeconds e →
  omitLookup e = false →
  provide (objectMetadataCache e) (Event.InvolvedObject raw) (clientset e)
    (dynamicClient e) (metricsStore e) = (meta, Some err) →
  ∃ w' ev, onEvent e now p w = Returned tt w'
    ∧ handled (trace w') = handled (trace w) ++ [(fn e, ev)]
    ∧ EnhancedObjectReference.Deleted (EnhancedEvent.InvolvedObject ev)
      = IsNotFound err
    ∧ EnhancedObjectReference.Labels (EnhancedEvent.InvolvedObject ev) = ∅
    ∧ EnhancedObjectReference.Annotations (EnhancedEvent.InvolvedObject ev) = ∅
    ∧ EnhancedObjectReference.OwnerReferences (EnhancedEvent.InvolvedObject ev) = []
    ∧ EnhancedObjectReference.ObjectReference (EnhancedEvent.InvolvedObject ev)
      = Event.InvolvedObject raw.
Proof.
  intros Hraw Hs Hage Homit Hreply.
  eexists _, _. split.
  { by apply (onEvent_lookup_failed e now p w raw s Hraw Hs Hage meta err). }
  split; [by apply handled_keptWorld|].
  cbn. by rewrite ObjectReference_DeepCopy_id.
Qed.

Lemma lookup_failure_still_handled_witness :
  (events Scenario.steady !! 5%nat = Some Scenario.recent
   ∧ stores Scenario.steady
       !! metricsStore (Scenario.watcher Scenario.gone false 300) = Some Store.fresh
   ∧ Since Scenario.now (timestampOf Scenario.recent)
     <= maxEventAgeSeconds (Scenario.watcher Scenario.gone false 300)
   ∧ omitLookup (Scenario.watcher Scenario.gone false 300) = false)
  ∧ ∃ w' ev,
      onEvent (Scenario.watcher Scenario.gone false 300) Scenario.now 5%nat
        Scenario.steady = Returned tt w'
      ∧ handled (trace w') = handled (trace Scenario.steady) ++ [(7%nat, ev)]
      ∧ EnhancedObjectReference.Deleted (EnhancedEvent.InvolvedObject ev) = true
      ∧ EnhancedObjectReference.Labels (EnhancedEvent.InvolvedObject ev) = ∅
      ∧ EnhancedObjectReference.Annotations (EnhancedEvent.InvolvedObject ev) = ∅
      ∧ EnhancedObjectReference.OwnerReferences (EnhancedEvent.InvolvedObject ev) = []
      ∧ EnhancedObjectReference.ObjectReference (EnhancedEvent.InvolvedObject ev)
        = Scenario.webPod.
Proof.
  split; [by vm_compute|].
  apply (lookup_failure_still_handled (Scenario.watcher Scenario.gone false 300)
           Scenario.now 5%nat Scenario.steady Scenario.recent Store.fresh
           (ObjectMetadata.mk ∅ ∅ [] false)
           (StatusNotFound "pods web-1 not found")); by vm_compute.
Defined.

(** C5. For an event that passes the age filter the events-processed
    counter is incremented exactly once, and before the metadata provider or
    the handler is called. For a discarded event the counter keeps its
    value, and neither the provider nor the handler is called. *)
Theorem processed_counted_before_enrichment (e : EventWatcher) (now : Time)
    (p : Ptr) (w : World) (raw : Event.t) (s : Store.t) :
  events w !! p = Some raw →
  stores w !! metricsStore e = Some s →
  ∃ w', onEvent e now p w = Returned tt w'
    ∧ (Since now (timestampOf raw) <= maxEventAgeSeconds e →
       readCounter (metricsStore e) EventsProcessed w'
       = Some (Store.EventsProcessed s + 1)%N
       ∧ ∃ before after,
           trace w' = trace w ++ before
                        ++ Inc (metricsStore e) EventsProcessed :: after
           ∧ increments (metricsStore e) EventsProcessed before = O
           ∧ increments (metricsStore e) EventsProcessed after = O
           ∧ lookups before = []
           ∧ handled before = [])
    ∧ (maxEventAgeSeconds e < Since now (timestampOf raw) →
       readCounter (metricsStore e) EventsProcessed w'
       = Some (Store.EventsProcessed s)
       ∧ increments (metricsStore e) EventsProcessed (trace w')
         = increments (metricsStore e) EventsProcessed (trace w)
       ∧ lookups (trace w') = lookups (trace w)
       ∧ handled (trace w') = handled (trace w)).
Proof.
  intros Hraw Hs.
  destruct (Z.lt_ge_cases (maxEventAgeSeconds e) (Since now (timestampOf raw)))
    as [Hold|Hfresh].
  - destruct (After (timestampOf raw) (startUpTime w)) eqn:Hafter.
    + eexists. split.
      { apply (onEvent_discarded e now p w).
        by apply (isEventDiscarded_counted e now p w raw Hraw s). }
      split; [lia|]. intros _. cbn [trace].
      rewrite increments_app, lookups_app, handled_app. cbn.
      rewrite !app_nil_r. split.
      { unfold readCounter. cbn. by rewrite lookup_insert_eq. }
      split; [|done]. case_bool_decide as Hsame; [by destruct Hsame|lia].
    + exists w. split.
      { apply (onEvent_discarded e now p w).
        by apply (isEventDiscarded_silent e now p w raw Hraw). }
      split; [lia|]. intros _. unfold readCounter. by rewrite Hs.
  - assert (Hage : Since now (timestampOf raw) <= maxEventAgeSeconds e) by lia.
    destruct (onEvent_kept e now p w raw s Hraw Hs Hage)
      as (mid & ev & Hrun & Hh & Hi & _).
    eexists. split; [exact Hrun|]. split; [|lia]. intros _.
    split; [unfold keptWorld; by rewrite readCounter_insert|].
    exists [receivedLog raw], (mid ++ [Handle (fn e) ev]).
    split; [done|]. split; [done|]. rewrite increments_app, Hi. done.
Qed.

Lemma processed_counted_before_enrichment_witness :
  (events Scenario.steady !! 5%nat = Some Scenario.recent
   ∧ stores Scenario.steady !! metricsStore Scenario.lenient = Some Store.fresh)
  ∧ ∃ w', onEvent Scenario.lenient Scenario.now 5%nat Scenario.steady = Returned tt w'
      ∧ readCounter (metricsStore Scenario.lenient) EventsProcessed w' = Some 1%N
      ∧ ∃ before after,
          trace w' = trace Scenario.steady ++ before
                       ++ Inc (metricsStore Scenario.lenient) EventsProcessed :: after
          ∧ increments (metricsStore Scenario.lenient) EventsProcessed before = O
          ∧ increments (metricsStore Scenario.lenient) EventsProcessed after = O
          ∧ lookups before = []
          ∧ handled before = [].
Proof.
  split; [by vm_compute|].
  destruct (processed_counted_before_enrichment Scenario.lenient Scenario.now
              5%nat Scenario.steady Scenario.recent Store.fresh)
    as (w' & Hrun & Hkept & _); [by vm_compute..|].
  exists w'. split; [exact Hrun|]. apply Hkept. by vm_compute.
Defined.

(** C7. With [omitLookup] set, an event that passes the age filter reaches
    the handler without any call to the metadata provider; its object
    reference is the raw event's, its labels, annotations and owner
    references are empty and its deletion flag is false. *)
Theorem omitLookup_bypasses_provider (e : EventWatcher) (now : Time) (p : Ptr)
    (w : World) (raw : Event.t) (s : Store.t) :
  events w !! p = Some raw →
  stores w !! metricsStore e = Some s →
  Since now (timestampOf raw) <= maxEventAgeSeconds e →
  omitLookup e = true →
  ∃ w' ev, onEvent e now p w = Returned tt w'
    ∧ lookups (trace w') = lookups (trace w)
    ∧ handled (trace w') = handled (trace w) ++ [(fn e, ev)]
    ∧ EnhancedObjectReference.ObjectReference (EnhancedEvent.InvolvedObject ev)
      = Event.InvolvedObject raw
    ∧ EnhancedObjectReference.Labels (EnhancedEvent.InvolvedObject ev) = ∅
    ∧ EnhancedObjectReference.Annotations (EnhancedEvent.InvolvedObject ev) = ∅
    ∧ EnhancedObjectReference.OwnerReferences (EnhancedEvent.InvolvedObject ev) = []
    ∧ EnhancedObjectReference.Deleted (EnhancedEvent.InvolvedObject ev) = false.
Proof.
  intros Hraw Hs Hage Homit.
  eexists _, _. split.
  { by apply (onEvent_omitLookup e now p w raw s Hraw Hs Hage). }
  split; [rewrite lookups_keptWorld; apply app_nil_r|].
  split; [by apply handled_keptWorld|].
  cbn. by rewrite ObjectReference_DeepCopy_id.
Qed.

Lemma omitLookup_bypasses_provider_witness :
  (events Scenario.steady !! 5%nat = Some Scenario.recent
   ∧ stores Scenario.steady
       !! metricsStore (Scenario.watcher Scenario.resolving true 300)
     = Some Store.fresh
   ∧ Since Scenario.now (timestampOf Scenario.recent)
     <= maxEventAgeSeconds (Scenario.watcher Scenario.resolving true 300)
   ∧ omitLookup (Scenario.watcher Scenario.resolving true 300) = true)
  ∧ ∃ w' ev,
      onEvent (Scenario.watcher Scenario.resolving true 300) Scenario.now 5%nat
        Scenario.steady = Returned tt w'
      ∧ lookups (trace w') = lookups (trace Scenario.steady)
      ∧ handled (trace w') = handled (trace Scenario.steady) ++ [(7%nat, ev)]
      ∧ EnhancedObjectReference.ObjectReference (EnhancedEvent.InvolvedObject ev)
        = Scenario.webPod
      ∧ EnhancedObjectReference.Labels (EnhancedEvent.InvolvedObject ev) = ∅
      ∧ EnhancedObjectReference.Annotations (EnhancedEvent.InvolvedObject ev) = ∅
      ∧ EnhancedObjectReference.OwnerReferences (EnhancedEvent.InvolvedObject ev) = []
      ∧ EnhancedObjectReference.Deleted (EnhancedEvent.InvolvedObject ev) = false.
Proof.
  split; [by vm_compute|].
  apply (omitLookup_bypasses_provider (Scenario.watcher Scenario.resolving true 300)
           Scenario.now 5%nat Scenario.steady Scenario.recent Store.fresh);
    by vm_compute.
Defined.



(** C10. Whether enrichment is disabled, fails or succeeds, an event that
    passes the age filter reaches the handler with its object reference set
    to a deep copy of the raw event's involved object, which equals it. *)
Theorem handler_always_gets_reference (e : EventWatcher) (now : Time) (p : Ptr)
    (w : World) (raw : Event.t) (s : Store.t) :
  events w !! p = Some raw →
  stores w !! metricsStore e = Some s →
  Since now (timestampOf raw) <= maxEventAgeSeconds e →
  ∃ w' ev, onEvent e now p w = Returned tt w'
    ∧ handled (trace w') = handled (trace w) ++ [(fn e, ev)]
    ∧ EnhancedObjectReference.ObjectReference (EnhancedEvent.InvolvedObject ev)
      = ObjectReference.DeepCopy (Event.InvolvedObject raw)
    ∧ EnhancedObjectReference.ObjectReference (EnhancedEvent.InvolvedObject ev)
      = Event.InvolvedObject raw.
Proof.
  intros Hraw Hs Hage.
  destruct (onEvent_kept e now p w raw s Hraw Hs Hage)
    as (mid & ev & Hrun & Hh & _ & _ & _ & Href).
  eexists _, ev. split; [exact Hrun|].
  split; [by apply handled_keptWorld|].
  split; [exact Href|]. by rewrite Href, ObjectReference_DeepCopy_id.
Qed.

Lemma handler_always_gets_reference_witness :
  (events Scenario.steady !! 5%nat = Some Scenario.recent
   ∧ stores Scenario.steady
       !! metricsStore (Scenario.watcher Scenario.failing false 300)
     = Some Store.fresh
   ∧ Since Scenario.now (timestampOf Scenario.recent)
     <= maxEventAgeSeconds (Scenario.watcher Scenario.failing false 300))
  ∧ ∃ w' ev,
      onEvent (Scenario.watcher Scenario.failing false 300) Scenario.now 5%nat
        Scenario.steady = Returned tt w'
      ∧ handled (trace w') = handled (trace Scenario.steady) ++ [(7%nat, ev)]
      ∧ EnhancedObjectReference.ObjectReference (EnhancedEvent.InvolvedObject ev)
        = ObjectReference.DeepCopy Scenario.webPod
      ∧ EnhancedObjectReference.ObjectReference (EnhancedEvent.InvolvedObject ev)
        = Scenario.webPod.
Proof.
  split; [by vm_compute|].
  apply (handler_always_gets_reference
           (Scenario.watcher Scenario.failing false 300) Scenario.now 5%nat
           Scenario.steady Scenario.recent Store.fresh); by vm_compute.
Defined.

(** ** Notifications *)

(** C6. An add notification and an update notification both run [onEvent]
    on the event they carry, the update on its new object only; a delete
    notification returns at once and leaves the world as it was. *)
Theorem notifications_share_one_path (e : EventWatcher) (now : Time)
    (event : Ptr) (oldObj obj : Object) (isInInitialList : bool) (w : World) :
  OnAdd e now (EventObject event) isInInitialList w = onEvent e now event w
  ∧ OnUpdate e now oldObj (EventObject event) w = onEvent e now event w
  ∧ OnDelete e obj w = Returned tt w.
Proof. repeat split. Qed.

(** ** The process start time *)

(** C9, as the code has it. The process start time is one variable of the
    package, shared by all watchers: after [setStartUpTime] on any watcher,
    every watcher, the same or another, counts and warns about a discarded
    event exactly when the event's timestamp is after the time just set. *)
Theorem startUpTime_is_shared (e1 e2 : EventWatcher) (t now : Time) (p : Ptr)
    (w : World) (raw : Event.t) (s : Store.t) :
  events w !! p = Some raw →
  stores w !! metricsStore e2 = Some s →
  maxEventAgeSeconds e2 < Since now (timestampOf raw) →
  ∃ w', (setStartUpTime e1 t ;; onEvent e2 now p) w = Returned tt w'
    ∧ startUpTime w' = t
    ∧ readCounter (metricsStore e2) EventsDiscarded w'
      = Some (Store.EventsDiscarded s
              + (if After (timestampOf raw) t then 1 else 0))%N
    ∧ warnings (trace w')
      = warnings (trace w)
          ++ (if After (timestampOf raw) t
              then ["Event discarded as being older than maxEventAgeSeconds"]
              else []).
Proof.
  intros Hraw Hs Hage.
  set (w1 := mkWorld t (events w) (stores w) (trace w)).
  assert (Hstep : (setStartUpTime e1 t ;; onEvent e2 now p) w = onEvent e2 now p w1)
    by reflexivity.
  rewrite Hstep.
  destruct (After (timestampOf raw) t) eqn:Hafter.
  - eexists. split.
    { apply (onEvent_discarded e2 now p w1).
      by apply (isEventDiscarded_counted e2 now p w1 raw Hraw s). }
    split; [done|]. split.
    + unfold readCounter. cbn. by rewrite lookup_insert_eq.
    + cbn [trace w1]. by rewrite warnings_app.
  - exists w1. split.
    { apply (onEvent_discarded e2 now p w1).
      by apply (isEventDiscarded_silent e2 now p w1 raw Hraw). }
    split; [done|]. split.
    + unfold readCounter. cbn. rewrite Hs. cbn. by rewrite N.add_0_r.
    + cbn. by rewrite app_nil_r.
Qed.

Lemma startUpTime_is_shared_witness :
  (events Scenario.steady !! 5%nat = Some Scenario.recent
   ∧ stores Scenario.steady !! metricsStore (Scenario.otherWatcher 5)
     = Some Store.fresh
   ∧ maxEventAgeSeconds (Scenario.otherWatcher 5)
     < Since Scenario.now (timestampOf Scenario.recent))
  ∧ ∃ w', (setStartUpTime Scenario.strict (Scenario.now - 3 * Second) ;;
           onEvent (Scenario.otherWatcher 5) Scenario.now 5%nat) Scenario.steady
          = Returned tt w'
      ∧ startUpTime w' = Scenario.now - 3 * Second
      ∧ readCounter (metricsStore (Scenario.otherWatcher 5)) EventsDiscarded w'
        = Some (Store.EventsDiscarded Store.fresh
                + (if After (timestampOf Scenario.recent)
                        (Scenario.now - 3 * Second)%Z
                   then 1 else 0))%N
      ∧ warnings (trace w')
        = warnings (trace Scenario.steady)
            ++ (if After (timestampOf Scenario.recent) (Scenario.now - 3 * Second)
                then ["Event discarded as being older than maxEventAgeSeconds"]
                else []).
Proof.
  split; [by vm_compute|].
  apply (startUpTime_is_shared Scenario.strict (Scenario.otherWatcher 5)
           (Scenario.now - 3 * Second) Scenario.now 5%nat Scenario.steady
           Scenario.recent Store.fresh); by vm_compute.
Defined.

(** C9, refuted as stated. Two watchers with stores and handlers of their
    own; the process started ten minutes ago. The second watcher discards
    the ten-seconds-old event with a warning and a counter of 1. If the
    setter is first called on the first watcher, with a time three seconds
    ago, the second watcher discards the same event without a warning and
    its counter stays at 0. *)
Lemma setter_on_one_watcher_changes_another :
  metricsStore Scenario.strict ≠ metricsStore (Scenario.otherWatcher 5)
  ∧ fn Scenario.strict ≠ fn (Scenario.otherWatcher 5)
  ∧ readCounter 2%nat EventsDiscarded
      (finalWorld (onEvent (Scenario.otherWatcher 5) Scenario.now 5%nat
                     Scenario.steady)) = Some 1%N
  ∧ warnings (trace
      (finalWorld (onEvent (Scenario.otherWatcher 5) Scenario.now 5%nat
                     Scenario.steady)))
    = ["Event discarded as being older than maxEventAgeSeconds"]
  ∧ readCounter 2%nat EventsDiscarded
      (finalWorld
         ((setStartUpTime Scenario.strict (Scenario.now - 3 * Second) ;;
           onEvent (Scenario.otherWatcher 5) Scenario.now 5%nat)
            Scenario.steady)) = Some 0%N
  ∧ warnings (trace
      (finalWorld
         ((setStartUpTime Scenario.strict (Scenario.now - 3 * Second) ;;
           onEvent (Scenario.otherWatcher 5) Scenario.now 5%nat)
            Scenario.steady))) = [].
Proof. by vm_compute. Qed.

(** ** The sink adapters *)

(** Two equations for the same call: rewrite one with the other. *)
Ltac same_call :=
  simplify_eq;
  repeat (match goal with
          | H1 : ?x = _, H2 : ?x = _ |- _ => rewrite H1 in H2
          end; simplify_eq).

Section SendContract.
Context {Layout Request : Type} (rt : Runtime Layout Request).

Lemma Loki_Send_nil (cfg : LokiConfig.t Layout) (now : Time) (ev : EnhancedEvent.t) :
  Loki_Send rt cfg now ev = None ↔
  ∃ req resp body,
    Loki_request rt cfg now ev = inl req
    ∧ Do rt req = inl resp
    ∧ Response.ReadAll resp = (body, None)
    ∧ 200 <= Response.StatusCode resp < 300.
Proof.
  unfold Loki_Send.
  destruct (Loki_request rt cfg now ev) as [req|err] eqn:Hreq.
  - destruct (Do rt req) as [resp|err] eqn:Hdo.
    + destruct (Response.ReadAll resp) as [body [err|]] eqn:Hread.
      * split; [done|].
        intros (req' & resp' & body' & H1 & H2 & H3 & _). same_call.
      * destruct (Z.leb_spec 200 (Response.StatusCode resp));
          destruct (Z.ltb_spec (Response.StatusCode resp) 300); cbn.
        -- split; [|done]. intros _. by exists req, resp, body.
        -- split; [done|].
           intros (req' & resp' & body' & H1 & H2 & _ & Hst). same_call; lia.
        -- split; [done|].
           intros (req' & resp' & body' & H1 & H2 & _ & Hst). same_call; lia.
        -- split; [done|].
           intros (req' & resp' & body' & H1 & H2 & _ & Hst). same_call; lia.
    + split; [done|].
      intros (req' & resp' & body' & H1 & H2 & _). same_call.
  - split; [done|]. intros (req' & resp' & body' & H1 & _). same_call.
Qed.

Lemma Teams_Send_not_sent (cfg : TeamsConfig.t Layout) (ev : EnhancedEvent.t)
    (err : error) :
  Teams_request rt cfg ev = inr err → Teams_Send rt cfg ev = Some err.
Proof. intros Hreq. unfold Teams_Send. by rewrite Hreq. Qed.

Lemma Teams_Send_answered (cfg : TeamsConfig.t Layout) (ev : EnhancedEvent.t)
    (req : Request) (resp : Response.t) :
  Teams_request rt cfg ev = inl req →
  Do rt req = inl resp →
  (Teams_Send rt cfg ev = None ↔
   ∃ body,
     Response.ReadAll resp = (body, None)
     ∧ Response.StatusCode resp = 200
     ∧ Contains body "Microsoft Teams endpoint returned HTTP error 429" = false).
Proof.
  intros Hreq Hdo. unfold Teams_Send. rewrite Hreq, Hdo.
  destruct (Response.ReadAll resp) as [body [err|]] eqn:Hread.
  - split; [done|]. intros (body' & H1 & _). same_call.
  - destruct (Z.eqb_spec (Response.StatusCode resp) 200) as [Hok|Hbad]; cbn.
    + destruct (Contains body _) eqn:Hlimit.
      * split; [done|]. intros (body' & H1 & _ & Hc). same_call.
      * split; [|done]. intros _. by exists body.
    + split; [done|]. intros (body' & _ & Hst & _). done.
Qed.

End SendContract.

(** C2, as the code has it. [Loki.Send] returns [nil] exactly when the
    request was built and sent, the body of the response was read and the
    status is 2xx. [Teams.Send] returns the error of a step that fails
    before the request is sent; when the HTTP client returns a response, it
    returns [nil] exactly when the body was read, the status is 200 and the
    body does not carry the rate-limit message of the Teams endpoint. *)
Theorem send_error_contract {Layout Request : Type} (rt : Runtime Layout Request)
    (tcfg : TeamsConfig.t Layout) (lcfg : LokiConfig.t Layout) (now : Time)
    (ev : EnhancedEvent.t) :
  (Loki_Send rt lcfg now ev = None ↔
   ∃ req resp body,
     Loki_request rt lcfg now ev = inl req
     ∧ Do rt req = inl resp
     ∧ Response.ReadAll resp = (body, None)
     ∧ 200 <= Response.StatusCode resp < 300)
  ∧ (∀ err, Teams_request rt tcfg ev = inr err → Teams_Send rt tcfg ev = Some err)
  ∧ (∀ req resp,
       Teams_request rt tcfg ev = inl req →
       Do rt req = inl resp →
       (Teams_Send rt tcfg ev = None ↔
        ∃ body,
          Response.ReadAll resp = (body, None)
          ∧ Response.StatusCode resp = 200
          ∧ Contains body "Microsoft Teams endpoint returned HTTP error 429" = false)).
Proof.
  split; [apply Loki_Send_nil|].
  split; [apply Teams_Send_not_sent|apply Teams_Send_answered].
Qed.

Lemma send_error_contract_witness :
  Teams_request (Scenario.answering 200 "1") Scenario.teams Scenario.enhanced
  = inl "https://teams.example/hook Event: Back-off restarting"
  ∧ Do (Scenario.answering 200 "1")
      "https://teams.example/hook Event: Back-off restarting"
    = inl (Response.mk 200 ("1", None))
  ∧ (Teams_Send (Scenario.answering 200 "1") Scenario.teams Scenario.enhanced = None ↔
     ∃ body,
       Response.ReadAll (Response.mk 200 ("1", None)) = (body, None)
       ∧ Response.StatusCode (Response.mk 200 ("1", None)) = 200
       ∧ Contains body "Microsoft Teams endpoint returned HTTP error 429" = false).
Proof.
  split; [by vm_compute|]. split; [by vm_compute|].
  apply (proj2 (proj2 (send_error_contract (Scenario.answering 200 "1")
                         Scenario.teams Scenario.loki Scenario.now
                         Scenario.enhanced))
           "https://teams.example/hook Event: Back-off restarting"
           (Response.mk 200 ("1", None))); by vm_compute.
Defined.

(** C2, refuted as stated. The Teams endpoint answers the request with
    status 200 and a body that reports rate limiting: the request completed
    with a success status, and [Teams.Send] returns an error. *)
Lemma Teams_Send_rate_limited_200 :
  Do (Scenario.answering 200
        "Webhook message delivery failed with error: Microsoft Teams endpoint returned HTTP error 429")
    "https://teams.example/hook Event: Back-off restarting"
  = inl (Response.mk 200
           ("Webhook message delivery failed with error: Microsoft Teams endpoint returned HTTP error 429",
            None))
  ∧ Teams_Send
      (Scenario.answering 200
         "Webhook message delivery failed with error: Microsoft Teams endpoint returned HTTP error 429")
      Scenario.teams Scenario.enhanced
    = Some (errorString
              "rate limited: Webhook message delivery failed with error: Microsoft Teams endpoint returned HTTP error 429").
Proof. by vm_compute. Qed.

(** Where the two adapters part: when the request never reaches a server,
    [Loki.Send] returns the transport error and [Teams.Send] returns [nil]. *)
Example Send_unreachable :
  Loki_Send Scenario.unreachable Scenario.loki Scenario.now Scenario.enhanced
  = Some (errorString "dial tcp: connection refused")
  ∧ Teams_Send Scenario.unreachable Scenario.teams Scenario.enhanced = None.
Proof. by vm_compute. Qed.

(** * Further properties of the watcher *)

(** ** One event *)

Lemma tally_nothing (s : Store.t) : tally 0 0 s = s.
Proof. destruct s. unfold tally. cbn. by rewrite !N.add_0_r. Qed.

Lemma tally_processed (s : Store.t) : tally 1 0 s = incCounter EventsProcessed s.
Proof. destruct s. unfold tally. cbn. by rewrite !N.add_0_r. Qed.

Lemma tally_discarded (s : Store.t) : tally 0 1 s = incCounter EventsDiscarded s.
Proof. destruct s. unfold tally. cbn. by rewrite !N.add_0_r. Qed.

Lemma tally_tally (k1 t1 k2 t2 : nat) (s : Store.t) :
  tally k2 t2 (tally k1 t1 s) = tally (k1 + k2) (t1 + t2) s.
Proof. unfold tally. cbn. f_equal; lia. Qed.

(** Everything one run of [onEvent] does, read through [handled], [lookups]
    and [warnings]. *)
Lemma onEvent_step (e : EventWatcher) (now : Time) (p : Ptr) (w : World)
    (raw : Event.t) (s : Store.t) :
  events w !! p = Some raw →
  stores w !! metricsStore e = Some s →
  let old := maxEventAgeSeconds e <? Since now (timestampOf raw) in
  let told := old && After (timestampOf raw) (startUpTime w) in
  ∃ w' delta, onEvent e now p w = Returned tt w'
    ∧ startUpTime w' = startUpTime w
    ∧ events w' = events w
    ∧ stores w'
      = <[metricsStore e := tally (if old then 0 else 1) (if told then 1 else 0) s]>
          (stores w)
    ∧ trace w' = trace w ++ delta
    ∧ handled delta = (if old then [] else [(fn e, enhance e raw)])
    ∧ lookups delta
      = (if old || omitLookup e then [] else [Event.InvolvedObject raw])
    ∧ warnings delta
      = (if told then ["Event discarded as being older than maxEventAgeSeconds"]
         else []).
Proof.
  intros Hraw Hs old told. subst told old.
  destruct (Z.ltb_spec (maxEventAgeSeconds e) (Since now (timestampOf raw)))
    as [Hold|Hfresh]; cbn [andb orb].
  - destruct (After (timestampOf raw) (startUpTime w)) eqn:Hafter.
    + eexists _, _. split.
      { apply (onEvent_discarded e now p w).
        by apply (isEventDiscarded_counted e now p w raw Hraw s). }
      cbn [startUpTime events stores trace]. by rewrite tally_discarded.
    + exists w, []. split.
      { apply (onEvent_discarded e now p w).
        by apply (isEventDiscarded_silent e now p w raw Hraw). }
      rewrite tally_nothing, insert_id by done. by rewrite app_nil_r.
  - unfold enhance. destruct (omitLookup e) eqn:Homit.
    + eexists _, _. split.
      { by apply (onEvent_omitLookup e now p w raw s Hraw Hs Hfresh). }
      unfold keptWorld. cbn [startUpTime events stores trace].
      by rewrite tally_processed.
    + destruct (provide (objectMetadataCache e) (Event.InvolvedObject raw)
        (clientset e) (dynamicClient e) (metricsStore e)) as [meta [err|]] eqn:Hreply.
      * eexists _, _. split.
        { by apply (onEvent_lookup_failed e now p w raw s Hraw Hs Hfresh meta err). }
        unfold keptWorld. cbn [startUpTime events stores trace].
        by rewrite tally_processed.
      * eexists _, _. split.
        { by apply (onEvent_lookup_resolved e now p w raw s Hraw Hs Hfresh meta). }
        unfold keptWorld. cbn [startUpTime events stores trace].
        by rewrite tally_processed.
Qed.

(** ** A stream of callbacks *)

(** Everything one callback does. *)
Lemma deliver_step (e : EventWatcher) (now : Time) (c : Callback) (w : World)
    (s : Store.t) :
  stores w !! metricsStore e = Some s →
  deliverable (events w) c →
  ∃ w' delta, deliver e now c w = Returned tt w'
    ∧ startUpTime w' = startUpTime w
    ∧ events w' = events w
    ∧ stores w'
      = <[metricsStore e :=
            tally (match shown e (events w) (now, c) with Some _ => 1 | None => 0 end)
              (if reported e (events w) (startUpTime w) (now, c) then 1 else 0) s]>
          (stores w)
    ∧ trace w' = trace w ++ delta
    ∧ handled delta
      = match shown e (events w) (now, c) with
        | Some raw => [(fn e, enhance e raw)]
        | None => []
        end
    ∧ lookups delta
      = match shown e (events w) (now, c) with
        | Some raw => if omitLookup e then [] else [Event.InvolvedObject raw]
        | None => []
        end
    ∧ warnings delta
      = (if reported e (events w) (startUpTime w) (now, c)
         then ["Event discarded as being older than maxEventAgeSeconds"]
         else []).
Proof.
  intros Hs Hc. unfold deliverable in Hc. unfold shown, reported, observed in *.
  cbn [fst snd].
  destruct (carried c) as [[p|typeName]|] eqn:Hcar.
  - destruct Hc as [raw Hraw]. rewrite Hraw.
    assert (Hlook : deliver e now c w = onEvent e now p w).
    { destruct c as [obj b|oldObj newObj|obj]; by simplify_eq/=. }
    rewrite Hlook.
    destruct (onEvent_step e now p w raw s Hraw Hs)
      as (w' & delta & Hrun & Hstart & Hev & Hst & Htr & Hh & Hl & Hw).
    exists w', delta.
    destruct (maxEventAgeSeconds e <? Since now (timestampOf raw)); cbn in *.
    + by destruct (After (timestampOf raw) (startUpTime w)).
    + done.
  - by destruct Hc.
  - exists w, []. destruct c as [obj b|oldObj newObj|obj]; try done.
    rewrite tally_nothing, insert_id, app_nil_r by done. done.
Qed.

Lemma deliverAll_run (e : EventWatcher) (cs : list (Time * Callback)) :
  ∀ (w : World) (s : Store.t),
  stores w !! metricsStore e = Some s →
  Forall (deliverable (events w)) cs.*2 →
  ∃ w' delta, deliverAll e cs w = Returned tt w'
    ∧ startUpTime w' = startUpTime w
    ∧ events w' = events w
    ∧ stores w'
      = <[metricsStore e :=
            tally (length (keptEvents e (events w) cs))
              (reports e (events w) (startUpTime w) cs) s]>
          (stores w)
    ∧ trace w' = trace w ++ delta
    ∧ handled delta
      = (λ raw, (fn e, enhance e raw)) <$> keptEvents e (events w) cs
    ∧ lookups delta
      = (if omitLookup e then []
         else Event.InvolvedObject <$> keptEvents e (events w) cs)
    ∧ warnings delta
      = replicate (reports e (events w) (startUpTime w) cs)
          "Event discarded as being older than maxEventAgeSeconds".
Proof.
  unfold keptEvents, reports.
  induction cs as [|[now c] cs IH]; intros w s Hs Hcs.
  - exists w, []. cbn. rewrite tally_nothing, insert_id, app_nil_r by done.
    by destruct (omitLookup e).
  - apply Forall_cons in Hcs as [Hc Hcs].
    destruct (deliver_step e now c w s Hs Hc)
      as (w1 & d1 & Hrun1 & Hstart1 & Hev1 & Hst1 & Htr1 & Hh1 & Hl1 & Hw1).
    destruct (IH w1 _ ltac:(rewrite Hst1; apply lookup_insert_eq)
                ltac:(by rewrite Hev1))
      as (w' & d2 & Hrun2 & Hstart2 & Hev2 & Hst2 & Htr2 & Hh2 & Hl2 & Hw2).
    exists w', (d1 ++ d2).
    split.
    { cbn [deliverAll]. unfold mbind, Go_bind. by rewrite Hrun1. }
    rewrite Hstart1, Hev1 in *.
    split; [congruence|]. split; [congruence|].
    rewrite handled_app, lookups_app, warnings_app, Hh1, Hh2, Hl1, Hl2, Hw1, Hw2.
    rewrite Hst2, Hst1, insert_insert_eq, tally_tally, Htr2, Htr1, <- app_assoc.
    cbn [omap list_omap List.filter].
    destruct (shown e (events w) (now, c)) as [raw|];
      destruct (reported e (events w) (startUpTime w) (now, c));
      cbn; by destruct (omitLookup e).
Qed.

(** The callbacks of the backlog scenario can all be run. *)
Lemma Backlog_deliverable :
  Forall (deliverable (events Backlog.world)) Backlog.stream.*2.
Proof.
  repeat (apply Forall_cons; split); try apply Forall_nil;
    vm_compute; try exact I; eexists; reflexivity.
Defined.





(** X3. Over a stream, the events-processed counter grows by the number of
    handler calls: both grow by the number of events that pass the age
    filter. *)
Theorem processed_counter_matches_handler_calls (e : EventWatcher)
    (cs : list (Time * Callback)) (w : World) (s : Store.t) :
  stores w !! metricsStore e = Some s →
  Forall (deliverable (events w)) cs.*2 →
  ∃ w', deliverAll e cs w = Returned tt w'
    ∧ readCounter (metricsStore e) EventsProcessed w'
      = Some (Store.EventsProcessed s
              + N.of_nat (length (keptEvents e (events w) cs)))%N
    ∧ length (handled (trace w'))
      = (length (handled (trace w)) + length (keptEvents e (events w) cs))%nat.
Proof.
  intros Hs Hcs.
  destruct (deliverAll_run e cs w s Hs Hcs)
    as (w' & delta & Hrun & _ & _ & Hst & Htr & Hh & _).
  exists w'. split; [exact Hrun|]. split.
  - unfold readCounter. rewrite Hst, lookup_insert_eq. done.
  - by rewrite Htr, handled_app, Hh, length_app, length_fmap.
Qed.

Lemma processed_counter_matches_handler_calls_witness :
  (stores Backlog.world !! metricsStore Scenario.lenient = Some Store.fresh
   ∧ Forall (deliverable (events Backlog.world)) Backlog.stream.*2)
  ∧ length (keptEvents Scenario.lenient (events Backlog.world) Backlog.stream) = 2%nat
  ∧ ∃ w', deliverAll Scenario.lenient Backlog.stream Backlog.world = Returned tt w'
      ∧ readCounter (metricsStore Scenario.lenient) EventsProcessed w'
        = Some (Store.EventsProcessed Store.fresh
                + N.of_nat (length (keptEvents Scenario.lenient
                                      (events Backlog.world) Backlog.stream)))%N
      ∧ length (handled (trace w'))
        = (length (handled (trace Backlog.world))
           + length (keptEvents Scenario.lenient (events Backlog.world)
                       Backlog.stream))%nat.
Proof.
  assert (Hs : stores Backlog.world !! metricsStore Scenario.lenient
               = Some Store.fresh) by (vm_compute; reflexivity).
  split; [exact (conj Hs Backlog_deliverable)|].
  split; [vm_compute; reflexivity|].
  exact (processed_counter_matches_handler_calls Scenario.lenient Backlog.stream
           Backlog.world Store.fresh Hs Backlog_deliverable).
Defined.

(** X4. Over a stream, the events-discarded counter grows by the number of
    discard warnings: both grow by the number of callbacks that show an
    event which is too old and whose timestamp is after the process start
    time. Discards of events from before the start leave no mark. *)
Theorem discarded_counter_matches_warnings (e : EventWatcher)
    (cs : list (Time * Callback)) (w : World) (s : Store.t) :
  stores w !! metricsStore e = Some s →
  Forall (deliverable (events w)) cs.*2 →
  ∃ w', deliverAll e cs w = Returned tt w'
    ∧ readCounter (metricsStore e) EventsDiscarded w'
      = Some (Store.EventsDiscarded s
              + N.of_nat (reports e (events w) (startUpTime w) cs))%N
    ∧ warnings (trace w')
      = warnings (trace w)
          ++ replicate (reports e (events w) (startUpTime w) cs)
               "Event discarded as being older than maxEventAgeSeconds".
Proof.
  intros Hs Hcs.
  destruct (deliverAll_run e cs w s Hs Hcs)
    as (w' & delta & Hrun & _ & _ & Hst & Htr & _ & _ & Hw).
  exists w'. split; [exact Hrun|]. split.
  - unfold readCounter. rewrite Hst, lookup_insert_eq. done.
  - by rewrite Htr, warnings_app, Hw.
Qed.

Lemma discarded_counter_matches_warnings_witness :
  (stores Backlog.world !! metricsStore Scenario.lenient = Some Store.fresh
   ∧ Forall (deliverable (events Backlog.world)) Backlog.stream.*2)
  ∧ reports Scenario.lenient (events Backlog.world) (startUpTime Backlog.world)
      Backlog.stream = 1%nat
  ∧ ∃ w', deliverAll Scenario.lenient Backlog.stream Backlog.world = Returned tt w'
      ∧ readCounter (metricsStore Scenario.lenient) EventsDiscarded w'
        = Some (Store.EventsDiscarded Store.fresh
                + N.of_nat (reports Scenario.lenient (events Backlog.world)
                              (startUpTime Backlog.world) Backlog.stream))%N
      ∧ warnings (trace w')
        = warnings (trace Backlog.world)
            ++ replicate
                 (reports Scenario.lenient (events Backlog.world)
                    (startUpTime Backlog.world) Backlog.stream)
                 "Event discarded as being older than maxEventAgeSeconds".
Proof.
  assert (Hs : stores Backlog.world !! metricsStore Scenario.lenient
               = Some Store.fresh) by (vm_compute; reflexivity).
  split; [exact (conj Hs Backlog_deliverable)|].
  split; [vm_compute; reflexivity|].
  exact (discarded_counter_matches_warnings Scenario.lenient Backlog.stream
           Backlog.world Store.fresh Hs Backlog_deliverable).
Defined.

(** X5. Over a stream, the metadata provider is asked once for each event
    that passes the age filter, in the order of the stream and about that
    event's involved object; it is never asked when [omitLookup] is set. *)
Theorem one_lookup_per_kept_event (e : EventWatcher)
    (cs : list (Time * Callback)) (w : World) (s : Store.t) :
  stores w !! metricsStore e = Some s →
  Forall (deliverable (events w)) cs.*2 →
  ∃ w', deliverAll e cs w = Returned tt w'
    ∧ lookups (trace w')
      = lookups (trace w)
          ++ (if omitLookup e then []
              else Event.InvolvedObject <$> keptEvents e (events w) cs).
Proof.
  intros Hs Hcs.
  destruct (deliverAll_run e cs w s Hs Hcs)
    as (w' & delta & Hrun & _ & _ & _ & Htr & _ & Hl & _).
  exists w'. split; [exact Hrun|]. by rewrite Htr, lookups_app, Hl.
Qed.

Lemma one_lookup_per_kept_event_witness :
  (stores Backlog.world !! metricsStore Scenario.lenient = Some Store.fresh
   ∧ Forall (deliverable (events Backlog.world)) Backlog.stream.*2)
  ∧ ∃ w', deliverAll Scenario.lenient Backlog.stream Backlog.world = Returned tt w'
      ∧ lookups (trace w')
        = lookups (trace Backlog.world)
            ++ (if omitLookup Scenario.lenient then []
                else Event.InvolvedObject
                       <$> keptEvents Scenario.lenient (events Backlog.world)
                             Backlog.stream).
Proof.
  assert (Hs : stores Backlog.world !! metricsStore Scenario.lenient
               = Some Store.fresh) by (vm_compute; reflexivity).
  split; [exact (conj Hs Backlog_deliverable)|].
  exact (one_lookup_per_kept_event Scenario.lenient Backlog.stream
           Backlog.world Store.fresh Hs Backlog_deliverable).
Defined.

(** X6. Removals can be struck from a stream: with or without them the
    watcher ends in the same world, or in the same panic. *)
Theorem removals_can_be_struck (e : EventWatcher) (cs : list (Time * Callback))
    (w : World) :
  deliverAll e (List.filter (λ nc, bool_decide (is_Some (carried nc.2))) cs) w
  = deliverAll e cs w.
Proof.
  revert w. induction cs as [|[now c] cs IH]; intros w; [done|].
  destruct c as [obj b|oldObj newObj|obj]; cbn [List.filter snd carried].
  - rewrite bool_decide_eq_true_2 by eauto.
    cbn [deliverAll]. unfold mbind, Go_bind.
    destruct (deliver e now (Added obj b) w); [apply IH|done].
  - rewrite bool_decide_eq_true_2 by eauto.
    cbn [deliverAll]. unfold mbind, Go_bind.
    destruct (deliver e now (Updated oldObj newObj) w); [apply IH|done].
  - rewrite bool_decide_eq_false_2 by (by intros [? ?]).
    cbn [deliverAll]. apply IH.
Qed.

(** ** Edges of the age filter *)

(** X7. When the metadata lookup succeeds, the handler is called once with
    the labels, annotations, owner references and deletion flag the
    provider returned, and with the raw event's object reference; the
    provider was asked once and no error was logged. *)
Theorem lookup_success_copies_metadata (e : EventWatcher) (now : Time) (p : Ptr)
    (w : World) (raw : Event.t) (s : Store.t) (meta : ObjectMetadata.t) :
  events w !! p = Some raw →
  stores w !! metricsStore e = Some s →
  Since now (timestampOf raw) <= maxEventAgeSeconds e →
  omitLookup e = false →
  provide (objectMetadataCache e) (Event.InvolvedObject raw) (clientset e)
    (dynamicClient e) (metricsStore e) = (meta, None) →
  ∃ w' ev, onEvent e now p w = Returned tt w'
    ∧ trace w'
      = trace w
          ++ [receivedLog raw; Inc (metricsStore e) EventsProcessed;
              GetObjectMetadata (Event.InvolvedObject raw) (clientset e)
                (dynamicClient e) (metricsStore e);
              Handle (fn e) ev]
    ∧ EnhancedObjectReference.Labels (EnhancedEvent.InvolvedObject ev)
      = ObjectMetadata.Labels meta
    ∧ EnhancedObjectReference.Annotations (EnhancedEvent.InvolvedObject ev)
      = ObjectMetadata.Annotations meta
    ∧ EnhancedObjectReference.OwnerReferences (EnhancedEvent.InvolvedObject ev)
      = ObjectMetadata.OwnerReferences meta
    ∧ EnhancedObjectReference.Deleted (EnhancedEvent.InvolvedObject ev)
      = ObjectMetadata.Deleted meta
    ∧ EnhancedObjectReference.ObjectReference (EnhancedEvent.InvolvedObject ev)
      = Event.InvolvedObject raw.
Proof.
  intros Hraw Hs Hage Homit Hreply.
  eexists _, _. split.
  { by apply (onEvent_lookup_resolved e now p w raw s Hraw Hs Hage meta). }
  split; [done|]. cbn. by rewrite ObjectReference_DeepCopy_id.
Qed.

Lemma lookup_success_copies_metadata_witness :
  (events Scenario.steady !! 5%nat = Some Scenario.recent
   ∧ stores Scenario.steady !! metricsStore Scenario.lenient = Some Store.fresh
   ∧ Since Scenario.now (timestampOf Scenario.recent)
     <= maxEventAgeSeconds Scenario.lenient
   ∧ omitLookup Scenario.lenient = false)
  ∧ ∃ w' ev,
      onEvent Scenario.lenient Scenario.now 5%nat Scenario.steady = Returned tt w'
      ∧ trace w'
        = trace Scenario.steady
            ++ [receivedLog Scenario.recent;
                Inc (metricsStore Scenario.lenient) EventsProcessed;
                GetObjectMetadata (Event.InvolvedObject Scenario.recent)
                  (clientset Scenario.lenient) (dynamicClient Scenario.lenient)
                  (metricsStore Scenario.lenient);
                Handle (fn Scenario.lenient) ev]
      ∧ EnhancedObjectReference.Labels (EnhancedEvent.InvolvedObject ev)
        = ObjectMetadata.Labels Scenario.podMetadata
      ∧ EnhancedObjectReference.Annotations (EnhancedEvent.InvolvedObject ev)
        = ObjectMetadata.Annotations Scenario.podMetadata
      ∧ EnhancedObjectReference.OwnerReferences (EnhancedEvent.InvolvedObject ev)
        = ObjectMetadata.OwnerReferences Scenario.podMetadata
      ∧ EnhancedObjectReference.Deleted (EnhancedEvent.InvolvedObject ev)
        = ObjectMetadata.Deleted Scenario.podMetadata
      ∧ EnhancedObjectReference.ObjectReference (EnhancedEvent.InvolvedObject ev)
        = Event.InvolvedObject Scenario.recent.
Proof.
  split; [by vm_compute|].
  apply (lookup_success_copies_metadata Scenario.lenient Scenario.now 5%nat
           Scenario.steady Scenario.recent Store.fresh Scenario.podMetadata);
    by vm_compute.
Defined.

(** X8. An event without a series time, a last timestamp and an event time
    is given the zero time by the age filter, whatever its first timestamp.
    Once the clock is past the range of a [Duration] (year 293) and the
    process start time is not before the zero time, such an event is
    dropped without a warning, a counter change or a handler call. *)
Theorem event_without_timestamp_vanishes (e : EventWatcher) (now : Time)
    (p : Ptr) (w : World) (raw : Event.t) :
  events w !! p = Some raw →
  (∀ series, Event.Series raw = Some series →
     EventSeries.LastObservedTime series = 0) →
  Event.LastTimestamp raw = 0 →
  Event.EventTime raw = 0 →
  inInt64 (maxEventAgeSeconds e) →
  maxEventAgeSeconds e ≠ maxDuration →
  maxDuration <= now →
  0 <= startUpTime w →
  onEvent e now p w = Returned tt w.
Proof.
  intros Hraw Hseries Hlast Htime Hrange Hmax Hnow Hstart.
  assert (Hts : timestampOf raw = 0).
  { unfold timestampOf. rewrite Hlast, Htime.
    destruct (Event.Series raw) as [series|]; [|done].
    by rewrite (Hseries series eq_refl). }
  apply (onEvent_discarded e now p w).
  apply (isEventDiscarded_silent e now p w raw Hraw).
  - apply Since_exceeds; [done..|]. rewrite Hts.
    unfold inInt64 in Hrange. lia.
  - rewrite Hts. unfold After. by apply Z.ltb_ge.
Qed.

Lemma event_without_timestamp_vanishes_witness :
  onEvent Scenario.lenient Scenario.now 5%nat
    (Scenario.world (Scenario.now - 600 * Second)
       (Event.mk "web-1.17a" "default" [] Scenario.webPod "Failed" "Back-off"
          (Scenario.now - Second) 0 1 "Warning" 0 None))
  = Returned tt
      (Scenario.world (Scenario.now - 600 * Second)
         (Event.mk "web-1.17a" "default" [] Scenario.webPod "Failed" "Back-off"
            (Scenario.now - Second) 0 1 "Warning" 0 None)).
Proof.
  apply (event_without_timestamp_vanishes Scenario.lenient Scenario.now 5%nat
           (Scenario.world (Scenario.now - 600 * Second)
              (Event.mk "web-1.17a" "default" [] Scenario.webPod "Failed" "Back-off"
                 (Scenario.now - Second) 0 1 "Warning" 0 None))
           (Event.mk "web-1.17a" "default" [] Scenario.webPod "Failed" "Back-off"
              (Scenario.now - Second) 0 1 "Warning" 0 None)).
  - vm_compute; reflexivity.
  - intros series Hseries. vm_compute in Hseries. discriminate.
  - reflexivity.
  - reflexivity.
  - vm_compute; split; discriminate.
  - vm_compute; discriminate.
  - vm_compute; discriminate.
  - vm_compute; discriminate.
Defined.

(** ** The maximum age [NewEventWatcher] computes *)

(** X9. For a configured maximum age of at most 9223372036 seconds in
    absolute value, the watcher's maximum age is exactly that many seconds:
    the multiplication by [time.Second] does not overflow. *)
Theorem NewEventWatcher_age_exact (clients : Ptr * Ptr) (MaxEventAgeSeconds : Z)
    (store : Ptr) (handler : EventHandler) (omit : bool)
    (provider : ObjectMetadataProvider) :
  - 9223372036 <= MaxEventAgeSeconds <= 9223372036 →
  maxEventAgeSeconds
    (NewEventWatcher clients MaxEventAgeSeconds store handler omit provider)
  = MaxEventAgeSeconds * Second.
Proof.
  intros Hrange. cbn. unfold mulDuration, wrap64, Second.
  rewrite Z.mod_small by lia. lia.
Qed.

Lemma NewEventWatcher_age_exact_witness :
  - 9223372036 <= 300 <= 9223372036
  ∧ maxEventAgeSeconds
      (NewEventWatcher (3%nat, 4%nat) 300 1%nat 7%nat false Scenario.resolving)
    = 300 * Second.
Proof.
  split; [lia|].
  apply (NewEventWatcher_age_exact (3%nat, 4%nat) 300 1%nat 7%nat false
           Scenario.resolving). lia.
Defined.

(** X10. A configured maximum age from 9223372037 to 18446744073 seconds
    overflows to a negative duration, and the watcher then discards every
    event whose timestamp is not later than the clock. *)
Theorem NewEventWatcher_age_overflow (clients : Ptr * Ptr) (MaxEventAgeSeconds : Z)
    (store : Ptr) (handler : EventHandler) (omit : bool)
    (provider : ObjectMetadataProvider) (now : Time) (p : Ptr) (w : World)
    (raw : Event.t) (s : Store.t) :
  9223372037 <= MaxEventAgeSeconds <= 18446744073 →
  events w !! p = Some raw →
  stores w !! store = Some s →
  timestampOf raw <= now →
  maxEventAgeSeconds
    (NewEventWatcher clients MaxEventAgeSeconds store handler omit provider) < 0
  ∧ ∃ w',
      isEventDiscarded
        (NewEventWatcher clients MaxEventAgeSeconds store handler omit provider)
        now p w = Returned true w'.
Proof.
  intros Hrange Hraw Hs Hts.
  set (e := NewEventWatcher clients MaxEventAgeSeconds store handler omit provider).
  assert (Hneg : maxEventAgeSeconds e < 0).
  { cbn. unfold mulDuration, wrap64, Second.
    replace (1000000000 * MaxEventAgeSeconds + 2 ^ 63)
      with (1000000000 * MaxEventAgeSeconds - 2 ^ 63 + 1 * 2 ^ 64) by lia.
    rewrite Z_mod_plus_full, Z.mod_small by lia. lia. }
  split; [exact Hneg|].
  assert (Hold : maxEventAgeSeconds e < Since now (timestampOf raw)).
  { apply Since_exceeds; [apply mulDuration_Second_bounds..|]. lia. }
  destruct (After (timestampOf raw) (startUpTime w)) eqn:Hafter.
  - eexists. by apply (isEventDiscarded_counted e now p w raw Hraw s).
  - eexists. by apply (isEventDiscarded_silent e now p w raw Hraw).
Qed.

Lemma NewEventWatcher_age_overflow_witness :
  (9223372037 <= 9223372037 <= 18446744073
   ∧ events Scenario.steady !! 5%nat = Some Scenario.recent
   ∧ stores Scenario.steady !! 1%nat = Some Store.fresh
   ∧ timestampOf Scenario.recent <= Scenario.now)
  ∧ maxEventAgeSeconds
      (NewEventWatcher (3%nat, 4%nat) 9223372037 1%nat 7%nat false
         Scenario.resolving) < 0
  ∧ ∃ w',
      isEventDiscarded
        (NewEventWatcher (3%nat, 4%nat) 9223372037 1%nat 7%nat false
           Scenario.resolving)
        Scenario.now 5%nat Scenario.steady = Returned true w'.
Proof.
  split; [by vm_compute|].
  apply (NewEventWatcher_age_overflow (3%nat, 4%nat) 9223372037 1%nat 7%nat false
           Scenario.resolving Scenario.now 5%nat Scenario.steady Scenario.recent
           Store.fresh); by vm_compute.
Defined.

(** * Further properties of the sinks *)

(** ** Strings *)

Lemma prefix_app (p s : string) :
  String.prefix p s = true ↔ ∃ rest, s = (p ++ rest)%string.
Proof.
  revert s. induction p as [|a p IH]; intros s.
  - split; [intros _; by exists s|]. by destruct s.
  - destruct s as [|b s]; cbn.
    + split; [done|]. by intros [rest Hrest].
    + destruct (Ascii.ascii_dec a b) as [->|Hne].
      * rewrite IH. split.
        -- intros [rest ->]. by exists rest.
        -- intros [rest Hrest]. exists rest. cbn in Hrest. by injection Hrest.
      * split; [done|]. intros [rest Hrest]. cbn in Hrest.
        injection Hrest as Hab _. by destruct Hne.
Qed.

(** [strings.Contains]: the substring occurs somewhere. *)
Lemma Contains_app (s substr : string) :
  Contains s substr = true ↔ ∃ before after, s = (before ++ substr ++ after)%string.
Proof.
  induction s as [|a s IH]; cbn [Contains].
  - destruct (String.prefix substr "") eqn:Hp.
    + split; [|done]. intros _. apply prefix_app in Hp as [rest Hrest].
      by exists "", rest.
    + split; [done|]. intros (before & after & Heq).
      destruct before; [|done]. cbn in Heq.
      assert (String.prefix substr "" = true) by (apply prefix_app; eauto).
      congruence.
  - destruct (String.prefix substr (String a s)) eqn:Hp.
    + split; [|done]. intros _. apply prefix_app in Hp as [rest Hrest].
      by exists "", rest.
    + rewrite IH. split.
      * intros (before & after & ->). by exists (String a before), after.
      * intros (before & after & Heq). destruct before as [|b before].
        -- cbn in Heq.
           assert (String.prefix substr (String a s) = true)
             by (apply prefix_app; eauto).
           congruence.
        -- cbn in Heq. injection Heq as -> ->. by exists before, after.
Qed.

Lemma length_append (s t : string) :
  String.length (s ++ t) = (String.length s + String.length t)%nat.
Proof.
  induction s as [|a s IH]; [done|].
  change (S (String.length (s ++ t)%string)
          = S (String.length s + String.length t)).
  by rewrite IH.
Qed.

Lemma append_inj_r (s1 s2 t : string) : (s1 ++ t = s2 ++ t)%string → s1 = s2.
Proof.
  revert s2. induction s1 as [|a s1 IH]; intros [|b s2] Heq.
  - done.
  - apply (f_equal String.length) in Heq.
    rewrite !length_append in Heq. cbn in Heq. lia.
  - apply (f_equal String.length) in Heq.
    rewrite !length_append in Heq. cbn in Heq. lia.
  - injection Heq as -> Heq. by rewrite (IH s2 Heq).
Qed.

(** ** The Loki adapter *)

(** X11. [containsTemplatePattern] accepts a string exactly when both an
    opening and a closing pair of braces occur somewhere in it; it does not
    ask that the opening pair comes first. *)
Theorem template_pattern_is_two_substrings (s : string) :
  containsTemplatePattern s = true
  ↔ (∃ before after, s = (before ++ "{{" ++ after)%string)
    ∧ (∃ before after, s = (before ++ "}}" ++ after)%string).
Proof.
  unfold containsTemplatePattern.
  by rewrite andb_true_iff, !Contains_app.
Qed.

Section Labels.
Context {Layout Request : Type} (rt : Runtime Layout Request).

Lemma processLabels_list_to_map (ev : EnhancedEvent.t)
    (visit : list (string * string)) :
  processLabels rt ev visit
  = list_to_map (prod_map id (processLabel rt ev) <$> reverse visit).
Proof.
  unfold processLabels.
  induction visit as [|kv visit IH] using rev_ind; [done|].
  rewrite foldl_snoc, IH, reverse_snoc. by destruct kv.
Qed.

(** X12. The stream labels [Loki.Send] computes do not depend on the order
    in which the loop visits the configured labels: for every order, each
    configured key is present, with the value [processLabel] gives it. *)
Theorem stream_labels_any_order (ev : EnhancedEvent.t)
    (labels : gmap string string) (visit : list (string * string)) :
  visit ≡ₚ map_to_list labels →
  processLabels rt ev visit = processLabel rt ev <$> labels.
Proof.
  intros Hvisit. rewrite processLabels_list_to_map.
  rewrite <- (list_to_map_to_list (processLabel rt ev <$> labels)).
  apply list_to_map_proper.
  - rewrite <- list_fmap_compose.
    rewrite (list_fmap_ext _ fst) by (by intros ? [? ?] ?).
    rewrite reverse_Permutation, Hvisit. apply NoDup_fst_map_to_list.
  - by rewrite reverse_Permutation, Hvisit, map_to_list_fmap.
Qed.

End Labels.

(** X13. The Loki timestamp has the resolution of a second: two clock
    readings give the same timestamp exactly when they fall in the same
    second. *)
Theorem generateTimestamp_second_resolution (now1 now2 : Time) :
  generateTimestamp now1 = generateTimestamp now2
  ↔ now1 `div` Second = now2 `div` Second.
Proof.
  unfold generateTimestamp, Unix. split.
  - intros Heq. apply append_inj_r in Heq.
    apply (inj pretty) in Heq. lia.
  - by intros ->.
Qed.

Lemma stream_labels_any_order_witness :
  [("ns", "{{ .Namespace }}"); ("app", "exporter")]
    ≡ₚ map_to_list (<["app" := "exporter"]> (<["ns" := "{{ .Namespace }}"]> ∅))
  ∧ processLabels (Scenario.answering 204 "") Scenario.enhanced
      [("ns", "{{ .Namespace }}"); ("app", "exporter")]
    = processLabel (Scenario.answering 204 "") Scenario.enhanced
        <$> (<["app" := "exporter"]> (<["ns" := "{{ .Namespace }}"]> ∅)).
Proof.
  assert (Hvisit : [("ns", "{{ .Namespace }}"); ("app", "exporter")]
      ≡ₚ map_to_list (<["app" := "exporter"]> (<["ns" := "{{ .Namespace }}"]> ∅))).
  { rewrite map_to_list_insert by (vm_compute; reflexivity).
    rewrite insert_empty, map_to_list_singleton. apply perm_swap. }
  split; [exact Hvisit|].
  exact (stream_labels_any_order (Scenario.answering 204 "") Scenario.enhanced
           _ _ Hvisit).
Defined.

(** ** Transport failures *)

(** X14. When the HTTP client fails to deliver the request, [Loki.Send]
    returns the client's error, and [Teams.Send] returns [nil]. *)
Theorem transport_failure_results {Layout Request : Type}
    (rt : Runtime Layout Request) (tcfg : TeamsConfig.t Layout)
    (lcfg : LokiConfig.t Layout) (now : Time) (ev : EnhancedEvent.t)
    (treq lreq : Request) (terr lerr : error) :
  Teams_request rt tcfg ev = inl treq →
  Do rt treq = inr terr →
  Loki_request rt lcfg now ev = inl lreq →
  Do rt lreq = inr lerr →
  Teams_Send rt tcfg ev = None ∧ Loki_Send rt lcfg now ev = Some lerr.
Proof.
  intros Ht Htd Hl Hld. unfold Teams_Send, Loki_Send.
  by rewrite Ht, Htd, Hl, Hld.
Qed.

Lemma transport_failure_results_witness :
  Teams_Send Scenario.unreachable Scenario.teams Scenario.enhanced = None
  ∧ Loki_Send Scenario.unreachable Scenario.loki Scenario.now Scenario.enhanced
    = Some (errorString "dial tcp: connection refused").
Proof.
  apply (transport_failure_results Scenario.unreachable Scenario.teams
           Scenario.loki Scenario.now Scenario.enhanced
           "https://teams.example/hook Event: Back-off restarting"
           "https://loki.example/push {}"
           (errorString "dial tcp: connection refused")
           (errorString "dial tcp: connection refused")); by vm_compute.
Defined.

(** * Properties of the metrics store *)

Lemma string_app_eq_app (p1 p2 s1 s2 : string) :
  (p1 ++ s1 = p2 ++ s2)%string →
  ∃ x, (p1 = (p2 ++ x)%string ∧ s2 = (x ++ s1)%string)
       ∨ (p2 = (p1 ++ x)%string ∧ s1 = (x ++ s2)%string).
Proof.
  revert p2. induction p1 as [|a p1 IH]; intros p2 Heq.
  - exists p2. by right.
  - destruct p2 as [|b p2].
    + exists (String a p1). by left.
    + injection Heq as -> Heq. destruct (IH p2 Heq) as [x [[-> ->]|[-> ->]]];
        exists x; [by left|by right].
Qed.

Lemma tails_app (x s : string) : s ∈ tails (x ++ s)%string.
Proof.
  induction x as [|a x IH].
  - destruct s; apply list_elem_of_here.
  - change (s ∈ String a (x ++ s)%string :: tails (x ++ s)%string).
    by apply list_elem_of_further.
Qed.

(** None of the seven names is a proper suffix of another. *)
Lemma metricNames_no_suffix :
  Forall (λ s2, Forall (λ s1, s1 ∈ tails s2 → s1 = s2) metricNames) metricNames.
Proof. compute_done. Qed.

(** Two stores register a common name only if they have the same prefix. *)
Lemma storeNames_inj (p1 p2 s1 s2 : string) :
  s1 ∈ metricNames → s2 ∈ metricNames →
  (p1 ++ s1 = p2 ++ s2)%string → p1 = p2 ∧ s1 = s2.
Proof.
  intros H1 H2 Heq.
  pose proof metricNames_no_suffix as Htable.
  rewrite Forall_forall in Htable.
  assert (Hs : s1 = s2).
  { destruct (string_app_eq_app _ _ _ _ Heq) as [x [[_ ->]|[_ ->]]].
    - pose proof (Htable _ H2) as Hrow. rewrite Forall_forall in Hrow.
      apply (Hrow _ H1), tails_app.
    - pose proof (Htable _ H1) as Hrow. rewrite Forall_forall in Hrow.
      symmetry. apply (Hrow _ H2), tails_app. }
  subst s2. split; [|done]. by apply append_inj_r in Heq.
Qed.

Section MetricsStore.
Context (validName : string → bool).

Lemma promauto_all {A : Type} (names : list string) (k : Registry.M A) :
  ∀ registry : gset string,
  NoDup names →
  Forall (λ name, validName name = true) names →
  Forall (λ name, name ∉ registry) names →
  foldr (λ name m, promauto validName name;; m) k names registry
  = k (list_to_set names ∪ registry).
Proof.
  induction names as [|name names IH]; intros registry Hnd Hvalid Hfree.
  - cbn. by rewrite (left_id_L ∅ (∪)).
  - apply NoDup_cons in Hnd as [Hname Hnd].
    apply Forall_cons in Hvalid as [Hv Hvalid].
    apply Forall_cons in Hfree as [Hf Hfree].
    cbn [foldr]. unfold mbind at 1, Registry.M_bind, promauto at 1.
    rewrite Hv, bool_decide_eq_false_2 by done. cbn [negb].
    rewrite IH; [|done..|].
    + f_equal. cbn [list_to_set].
      by rewrite (assoc_L (∪)), (comm_L (∪) (list_to_set names)).
    + rewrite Forall_forall in Hfree |- *. intros n Hn.
      rewrite elem_of_union, elem_of_singleton. intros [->|Hr]; [done|].
      by apply (Hfree n).
Qed.

Lemma Unregister_all {A : Type} (names : list string) (k : Registry.M A) :
  ∀ registry : gset string,
  foldr (λ name m, Unregister name;; m) k names registry
  = k (registry ∖ list_to_set names).
Proof.
  induction names as [|name names IH]; intros registry.
  - cbn. f_equal. apply set_eq. intros n.
    rewrite elem_of_difference, elem_of_empty. tauto.
  - cbn [foldr]. unfold mbind at 1, Registry.M_bind, Unregister at 1.
    rewrite IH. f_equal. apply set_eq. intros n. cbn [list_to_set].
    rewrite !elem_of_difference, elem_of_union. tauto.
Qed.

Lemma storeNames_NoDup (name_prefix : string) : NoDup (storeNames name_prefix).
Proof.
  unfold storeNames. apply NoDup_fmap_2; [apply String.app_inj|].
  unfold metricNames. compute_done.
Qed.

Lemma NewMetricsStore_fresh (name_prefix : string) (registry : gset string) :
  Forall (λ name, validName name = true) (storeNames name_prefix) →
  Forall (λ name, name ∉ registry) (storeNames name_prefix) →
  NewMetricsStore validName name_prefix registry
  = Registry.Done (mkMetricsStore name_prefix Store.fresh)
      (list_to_set (storeNames name_prefix) ∪ registry).
Proof.
  intros Hvalid Hfree.
  apply (promauto_all (storeNames name_prefix)
           (mret (mkMetricsStore name_prefix Store.fresh)) registry);
    [apply storeNames_NoDup|done..].
Qed.

Lemma DestroyMetricsStore_run (store : MetricsStore) (registry : gset string) :
  DestroyMetricsStore store registry
  = Registry.Done tt (registry ∖ list_to_set (storeNames (namePrefix store))).
Proof.
  unfold DestroyMetricsStore.
  pose proof (Unregister_all
    [(namePrefix store ++ "events_sent")%string;
     (namePrefix store ++ "events_discarded")%string;
     (namePrefix store ++ "watch_errors")%string;
     (namePrefix store ++ "send_event_errors")%string;
     (namePrefix store ++ "build_info")%string;
     (namePrefix store ++ "kube_api_read_cache_hits")%string;
     (namePrefix store ++ "kube_api_read_cache_misses")%string]
    (mret tt) registry) as Hrun.
  cbn [foldr] in Hrun. rewrite Hrun. unfold mret, Registry.M_ret. f_equal.
  unfold storeNames, metricNames. cbn [fmap list_fmap list_to_set].
  apply set_eq. intros n.
  rewrite !elem_of_difference, !elem_of_union, !elem_of_singleton, elem_of_empty.
  tauto.
Qed.

(** X15. When the registry accepts the seven names of a store and none of
    them is registered, [NewMetricsStore] registers exactly these names and
    returns a store whose counters are all zero; [DestroyMetricsStore] on
    that store then leaves the registry as it was before. *)
Theorem metrics_store_round_trip (name_prefix : string) (registry : gset string) :
  Forall (λ name, validName name = true) (storeNames name_prefix) →
  Forall (λ name, name ∉ registry) (storeNames name_prefix) →
  ∃ store,
    NewMetricsStore validName name_prefix registry
    = Registry.Done store (list_to_set (storeNames name_prefix) ∪ registry)
    ∧ counters store = Store.fresh
    ∧ DestroyMetricsStore store (list_to_set (storeNames name_prefix) ∪ registry)
      = Registry.Done tt registry.
Proof.
  intros Hvalid Hfree. eexists. split; [by apply NewMetricsStore_fresh|].
  split; [done|]. rewrite DestroyMetricsStore_run. cbn [namePrefix]. f_equal.
  rewrite Forall_forall in Hfree.
  apply set_eq. intros n. rewrite elem_of_difference, elem_of_union, elem_of_list_to_set.
  specialize (Hfree n). tauto.
Qed.

(** X16. Creating a second store with the prefix of a store that is still
    registered panics on the first metric, [build_info], and registers
    nothing. *)
Theorem metrics_store_same_prefix_panics (name_prefix : string)
    (registry : gset string) :
  Forall (λ name, validName name = true) (storeNames name_prefix) →
  Forall (λ name, name ∉ registry) (storeNames name_prefix) →
  (NewMetricsStore validName name_prefix;;
   NewMetricsStore validName name_prefix) registry
  = Registry.Panic (Registry.AlreadyRegistered (name_prefix ++ "build_info"))
      (list_to_set (storeNames name_prefix) ∪ registry).
Proof.
  intros Hvalid Hfree. unfold mbind at 1, Registry.M_bind.
  rewrite NewMetricsStore_fresh by done.
  unfold NewMetricsStore, mbind at 1, Registry.M_bind, promauto at 1.
  apply Forall_cons in Hvalid as [-> _]. cbn [negb].
  rewrite bool_decide_eq_true_2; [done|].
  apply elem_of_union_l, elem_of_list_to_set, list_elem_of_here.
Qed.

(** X17. Stores with different prefixes share no metric name: both can be
    created one after the other, and destroying the first leaves exactly
    the names of the second registered. *)
Theorem metrics_stores_coexist (prefix1 prefix2 : string) (registry : gset string) :
  prefix1 ≠ prefix2 →
  Forall (λ name, validName name = true) (storeNames prefix1 ++ storeNames prefix2) →
  Forall (λ name, name ∉ registry) (storeNames prefix1 ++ storeNames prefix2) →
  (store1 ← NewMetricsStore validName prefix1;
   store2 ← NewMetricsStore validName prefix2;
   DestroyMetricsStore store1;;
   mret store2) registry
  = Registry.Done (mkMetricsStore prefix2 Store.fresh)
      (list_to_set (storeNames prefix2) ∪ registry).
Proof.
  intros Hne Hvalid Hfree.
  apply Forall_app in Hvalid as [Hv1 Hv2].
  apply Forall_app in Hfree as [Hf1 Hf2].
  assert (Hdisj : ∀ n, n ∈ storeNames prefix1 → n ∉ storeNames prefix2).
  { intros n H1 H2. unfold storeNames in H1, H2.
    apply list_elem_of_fmap in H1 as (s1 & -> & H1).
    apply list_elem_of_fmap in H2 as (s2 & Heq & H2).
    by destruct (storeNames_inj _ _ _ _ H1 H2 Heq). }
  unfold mbind at 1, Registry.M_bind.
  rewrite NewMetricsStore_fresh by done.
  unfold mbind at 1, Registry.M_bind.
  rewrite NewMetricsStore_fresh; [|done|].
  2:{ rewrite Forall_forall in Hf2 |- *. intros n Hn.
      rewrite elem_of_union, elem_of_list_to_set.
      intros [H1|Hr]; [by apply (Hdisj n)|by apply (Hf2 n)]. }
  unfold mbind at 1, Registry.M_bind. rewrite DestroyMetricsStore_run.
  cbn [namePrefix]. unfold mret, Registry.M_ret. f_equal.
  rewrite Forall_forall in Hf1.
  apply set_eq. intros n.
  rewrite elem_of_difference, !elem_of_union, !elem_of_list_to_set.
  specialize (Hf1 n). specialize (Hdisj n). tauto.
Qed.

End MetricsStore.

Lemma metrics_store_round_trip_witness :
  (Forall (λ name, (λ _, true) name = true) (storeNames "test_")
   ∧ Forall (λ name, name ∉ ({["go_build_info"]} : gset string)) (storeNames "test_"))
  ∧ ∃ store,
      NewMetricsStore (λ _, true) "test_" {["go_build_info"]}
      = Registry.Done store (list_to_set (storeNames "test_") ∪ {["go_build_info"]})
      ∧ counters store = Store.fresh
      ∧ DestroyMetricsStore store
          (list_to_set (storeNames "test_") ∪ {["go_build_info"]})
        = Registry.Done tt {["go_build_info"]}.
Proof.
  assert (Hvalid : Forall (λ name, (λ _ : string, true) name = true)
                     (storeNames "test_")) by (by repeat constructor).
  assert (Hfree : Forall (λ name, name ∉ ({["go_build_info"]} : gset string))
                    (storeNames "test_")) by compute_done.
  split; [exact (conj Hvalid Hfree)|].
  exact (metrics_store_round_trip (λ _, true) "test_" {["go_build_info"]}
           Hvalid Hfree).
Defined.

Lemma metrics_store_same_prefix_panics_witness :
  (NewMetricsStore (λ _, true) "test_";; NewMetricsStore (λ _, true) "test_")
    (∅ : gset string)
  = Registry.Panic (Registry.AlreadyRegistered "test_build_info")
      (list_to_set (storeNames "test_") ∪ ∅).
Proof.
  apply (metrics_store_same_prefix_panics (λ _, true) "test_" ∅).
  - by repeat constructor.
  - compute_done.
Defined.

Lemma metrics_stores_coexist_witness :
  ("a_" ≠ "b_"
   ∧ Forall (λ name, (λ _, true) name = true) (storeNames "a_" ++ storeNames "b_")
   ∧ Forall (λ name, name ∉ (∅ : gset string)) (storeNames "a_" ++ storeNames "b_"))
  ∧ (store1 ← NewMetricsStore (λ _, true) "a_";
     store2 ← NewMetricsStore (λ _, true) "b_";
     DestroyMetricsStore store1;;
     mret store2) (∅ : gset string)
    = Registry.Done (mkMetricsStore "b_" Store.fresh)
        (list_to_set (storeNames "b_") ∪ ∅).
Proof.
  assert (Hne : "a_" ≠ "b_") by discriminate.
  assert (Hvalid : Forall (λ name, (λ _ : string, true) name = true)
                     (storeNames "a_" ++ storeNames "b_")) by (by repeat constructor).
  assert (Hfree : Forall (λ name, name ∉ (∅ : gset string))
                    (storeNames "a_" ++ storeNames "b_")) by compute_done.
  split; [exact (conj Hne (conj Hvalid Hfree))|].
  exact (metrics_stores_coexist (λ _, true) "a_" "b_" ∅ Hne Hvalid Hfree).
Defined.
